(** * mcp-net: the provider registry and the request dispatcher

    A shallow embedding of package [server] ([server/mcp_manager.go] and the
    file of [MCPServer] next to it) and the properties of the registry
    ([MCPManager]) and of the dispatcher ([MCPServer]).

    Conventions of the embedding.
    - Go strings and byte slices are [string] (sequences of bytes).
    - A Go map [map[string]*MCPInfo] is a [gmap string MCPInfo]; the order in
      which [range] visits it is not fixed by the language, so functions that
      range over the map take the visiting order as an argument.
    - A Go multiple return [(v, err)] is a tuple whose last component is an
      [option error]; [None] is the nil error, a nil pointer is [None], a nil
      slice is [[]], a nil interface value is [JNull].
    - Code outside the repository (package [encoding/json], the operating
      system: processes, pipes, the file system) is a parameter: a record of
      the answers it gives. *)

From Stdlib Require Import ZArith NArith Ascii String List DecimalString.
From stdpp Require Import gmap strings list fin_maps.

Set Warnings "-register-all".

Open Scope string_scope.

(** ** Errors: package [errors] and [fmt.Errorf] *)

(** [errorString] is [errors.New] and [fmt.Errorf] without [%w];
    [wrapError] is [fmt.Errorf] with one [%w] verb: it keeps the formatted
    message and the wrapped error. *)
Inductive error : Type :=
| errorString (msg : string)
| wrapError (msg : string) (err : error).

(** The [Error()] method. *)
Definition Error (e : error) : string :=
  match e with
  | errorString msg => msg
  | wrapError msg _ => msg
  end.

(** [fmt.Errorf(prefix + "%w", err)]. *)
Definition Errorf_w (prefix : string) (err : error) : error :=
  wrapError (prefix +:+ Error err) err.

(** [fmt.Sprintf("%d", n)] for a Go [int]. *)
Definition Itoa (n : Z) : string := NilZero.string_of_int (Z.to_int n).

(** ** Package [strings] *)

(** [strings.IndexByte(s, c)]: the index of the first [c] in [s]; [None]
    stands for [-1]. For a separator of one byte [strings.Index] is this
    function. *)
Fixpoint IndexByte (s : string) (c : ascii) : option nat :=
  match s with
  | EmptyString => None
  | String a s' =>
      if Ascii.eqb a c then Some 0
      else match IndexByte s' c with
           | Some i => Some (S i)
           | None => None
           end
  end.

(** The slice expression [s[lo:hi]]. *)
Definition slice (s : string) (lo hi : nat) : string := substring lo (hi - lo) s.

(** The loop of [strings.genSplit] with [sepSave = 0] and a separator of one
    byte; [k] is the number of iterations left ([n - 1 - i]). *)
Fixpoint genSplit_loop (s : string) (sep : ascii) (k : nat) : list string :=
  match k with
  | O => [s]
  | S k' =>
      match IndexByte s sep with
      | None => [s]
      | Some m =>
          slice s 0 m
            :: genSplit_loop (slice s (m + 1) (String.length s)) sep k'
      end
  end.

(** [strings.SplitN(s, sep, n)] for [n >= 0] and a separator of one byte. *)
Definition SplitN (s : string) (sep : ascii) (n : nat) : list string :=
  match n with
  | O => []
  | S _ =>
      let n := (if String.length s + 1 <? n then String.length s + 1 else n)%nat in
      genSplit_loop s sep (n - 1)
  end.

(** [strings.Contains(s, ".")], used to state when an identifier has no
    separator. *)
Definition ContainsByte (s : string) (c : ascii) : bool :=
  match IndexByte s c with Some _ => true | None => false end.

(** ** JSON values *)

(** What [json.Unmarshal] stores in an [interface{}]: nil, bool, float64,
    string, [[]interface{}], [map[string]interface{}]. The float64 is kept as
    the number's literal: no function of the package computes with it. *)
Inductive JSON : Type :=
| JNull
| JBool (b : bool)
| JNumber (literal : string)
| JString (s : string)
| JArray (elems : list JSON)
| JObject (fields : list (string * JSON)).

(** ** The data model of [mcp_manager.go]

    Two records of one Rocq module cannot share a field name: the field
    [Name] of [MCPInfo] is [MCPName] here. The struct tags of [ToolInfo]
    belong to [encoding/json]. *)

Record ToolInfo : Type := mkToolInfo {
  Name : string;
  Description : string;
  Parameters : list (string * JSON)
}.

Record MCPInfo : Type := mkMCPInfo {
  MCPName : string;
  Path : string;
  ToolInfos : list ToolInfo
}.

(** The manager without its mutex; the lock is in [Module Locking] below. *)
Record MCPManager : Type := mkMCPManager {
  mcpMap : gmap string MCPInfo;
  mcpDirectory : string
}.

Definition NewMCPManager (mcpDirectory : string) : MCPManager :=
  {| mcpMap := ∅; mcpDirectory := mcpDirectory |}.

(** ** [GetMCPForTool] *)

Definition GetMCPForTool (m : MCPManager) (toolName : string)
  : option MCPInfo * string * option error :=
  let parts := SplitN toolName "." 2 in
  if negb (length parts =? 2)%nat then
    (None, "",
     Some (errorString
             ("invalid tool name format, expected 'mcp.tool': " +:+ toolName)))
  else
    let mcpName := nth 0 parts "" in
    let localToolName := nth 1 parts "" in
    match mcpMap m !! mcpName with
    | None => (None, "", Some (errorString ("MCP not found: " +:+ mcpName)))
    | Some mcpInfo => (Some mcpInfo, localToolName, None)
    end.

(** ** [GetAllTools] *)

(** The body of the outer loop: the tools of one endpoint, each copied with
    its name set to [fmt.Sprintf("%s.%s", mcpName, tool.Name)]. *)
Definition prefixed (mcpName : string) (tool : ToolInfo) : ToolInfo :=
  {| Name := mcpName +:+ "." +:+ Name tool;
     Description := Description tool;
     Parameters := Parameters tool |}.

Definition prefixedTools (entry : string * MCPInfo) : list ToolInfo :=
  map (prefixed (fst entry)) (ToolInfos (snd entry)).

(** [GetAllTools] when [range m.mcpMap] visits the entries in the order
    [visit]. *)
Definition GetAllTools_range (visit : list (string * MCPInfo)) : list ToolInfo :=
  fold_left (fun allTools entry => (allTools ++ prefixedTools entry)%list) visit [].

(** The orders [range] may take on the map: it visits every entry once. *)
Definition range_order (m : MCPManager) (visit : list (string * MCPInfo)) : Prop :=
  visit ≡ₚ map_to_list (mcpMap m).


(** ** The world outside the package *)

(** What the program does to the world, in order. *)
Inductive Event : Type :=
| EvStart (path : string)                 (* [cmd.Start()] returned nil *)
| EvStdin (path : string) (data : string) (* [stdin.Write(data)] *)
| EvStdout (path : string)                (* [stdout.Read(buffer)] *)
| EvKill (path : string)                  (* [cmd.Process.Kill()] *)
| EvStderr (text : string).               (* [fmt.Fprintf(os.Stderr, ...)] *)

(** [fs.DirEntry] values as [filepath.WalkDir] meets them. A [File] is any
    entry whose [IsDir()] is false; [info] is the answer of [d.Info()]: an
    error or the [fs.FileMode] of the entry (type bits and permission bits).
    A [Dir] carries the answer of [os.ReadDir]: an error, or its entries in
    the order [ReadDir] lists them. *)
Inductive DirEntry : Type :=
| File (name : string) (info : error + N)
| Dir (name : string) (readdir : option error) (entries : list DirEntry).

Definition DirEntryName (d : DirEntry) : string :=
  match d with
  | File name _ => name
  | Dir name _ _ => name
  end.

Definition IsDir (d : DirEntry) : bool :=
  match d with
  | File _ _ => false
  | Dir _ _ _ => true
  end.

(** [d.Info()]; the callback asks it of entries that are not directories. *)
Definition Info (d : DirEntry) : error + N :=
  match d with
  | File _ info => info
  | Dir _ _ _ => inr (N.shiftl 1 31 + 493)%N (* ModeDir | 0755 *)
  end.

(** The answers of the operating system and of the Go runtime.
    - [Lstat root]: [os.Lstat] at the start of [filepath.WalkDir]: an error or
      the tree under [root].
    - [StdinPipe], [StdoutPipe], [Start]: the errors of the three calls on
      [exec.CommandContext(ctx, path)].
    - [Write path sent data]: the error of [stdin.Write(data)] to the child
      started from [path], after the writes [sent].
    - [Read path sent]: [stdout.Read(buffer)] after the writes [sent]: an
      error or the bytes [buffer[:n]] of this one read. The context of the
      command (the 30 seconds of [getToolInfos], the caller's in
      [ExecuteTool]) kills the child when it ends: a read then answers with
      an error.
    - [mapRange m]: the order in which [range] visits the map [m]. *)
Record World : Type := mkWorld {
  Lstat : string -> error + DirEntry;
  StdinPipe : string -> option error;
  StdoutPipe : string -> option error;
  Start : string -> option error;
  Write : string -> list string -> string -> option error;
  Read : string -> list string -> error + string;
  mapRange : gmap string MCPInfo -> list (string * MCPInfo)
}.

(** The [tools/call] response as [ExecuteTool] declares it: [resp.Error] is
    [RespError] here, a nil pointer is [None]; [Code] is a Go [int]. *)
Record RPCError : Type := mkRPCError {
  Code : Z;
  Message : string
}.

Record CallResponse : Type := mkCallResponse {
  Result : JSON;
  RespError : option RPCError
}.

(** The request envelope of [ProcessRequest]. *)
Record Request : Type := mkRequest {
  JSONRPC : string;
  ID : JSON;
  Method : string
}.

(** [request.Params] of [handleToolsCall]; a nil map is [None]. *)
Record CallParams : Type := mkCallParams {
  ParamsName : string;
  Arguments : option (list (string * JSON))
}.

(** The Go values the package hands to [json.Marshal]. *)
Inductive any : Type :=
| AJSON (v : JSON)
| AInt (n : Z)
| AString (s : string)
| ATools (tools : list ToolInfo)
| AArguments (m : option (list (string * JSON)))
| AMap (fields : list (string * any)).

(** Package [encoding/json]: [json.Unmarshal] at the four types the package
    decodes into, and [json.Marshal]. *)
Record JSONCodec : Type := mkJSONCodec {
  Unmarshal_tools : string -> error + list ToolInfo;
  Unmarshal_response : string -> error + CallResponse;
  Unmarshal_request : string -> error + Request;
  Unmarshal_params : string -> error + CallParams;
  Marshal : any -> string * option error
}.

(** ** Early returns *)

(** A run of statements each of which may return early with an error: the
    events so far, and the error returned or the value computed. *)
Definition Session (A : Type) : Type := list Event * (error + A).

Definition ret {A : Type} (a : A) : Session A := ([], inr a).

Definition bind {A B : Type} (c : Session A) (k : A -> Session B) : Session B :=
  match c with
  | (evs, inl err) => (evs, inl err)
  | (evs, inr a) => let '(evs', r) := k a in ((evs ++ evs')%list, r)
  end.

Notation "x <~ c ; k" := (bind c (fun x => k))
  (at level 20, c at level 100, k at level 200, only parsing).

Definition emit (ev : Event) : Session unit := ([ev], inr tt).

(** [if err != nil { return nil, fmt.Errorf(prefix + "%w", err) }]. *)
Definition check (prefix : string) (err : option error) : Session unit :=
  match err with
  | Some e => ([], inl (Errorf_w prefix e))
  | None => ret tt
  end.

(** The same for a call that also yields a value. *)
Definition checked {A : Type} (prefix : string) (r : error + A) : Session A :=
  match r with
  | inl e => ([], inl (Errorf_w prefix e))
  | inr a => ret a
  end.

(** A double quote, and a JSON string literal of plain characters. *)
Definition dquote : string := String "034"%char "".
Definition quoted (s : string) : string := dquote +:+ s +:+ dquote.

(** The two fixed messages the package writes to a provider. *)
Definition initMsg : string :=
  "{" +:+ quoted "jsonrpc" +:+ ":" +:+ quoted "2.0" +:+ ","
      +:+ quoted "id" +:+ ":1,"
      +:+ quoted "method" +:+ ":" +:+ quoted "initialize" +:+ ","
      +:+ quoted "params" +:+ ":{" +:+ quoted "protocol_version" +:+ ":"
      +:+ quoted "2024-11-05" +:+ "}}".

Definition listMsg : string :=
  "{" +:+ quoted "jsonrpc" +:+ ":" +:+ quoted "2.0" +:+ ","
      +:+ quoted "id" +:+ ":2,"
      +:+ quoted "method" +:+ ":" +:+ quoted "tools/list" +:+ "}".

Definition newline : string := String "010"%char "".

(** ** Package [path/filepath] *)

Definition isPathSeparator (c : ascii) : bool := Ascii.eqb c "/".

(** The bytes of [l] after its leading separators ([l] is a path read from
    its end: the loop of [Base] that strips trailing slashes). *)
Fixpoint stripSeparators (l : list ascii) : list ascii :=
  match l with
  | [] => []
  | c :: l' => if isPathSeparator c then stripSeparators l' else l
  end.

(** The bytes of [l] before its first separator. *)
Fixpoint untilSeparator (l : list ascii) : list ascii :=
  match l with
  | [] => []
  | c :: l' => if isPathSeparator c then [] else c :: untilSeparator l'
  end.

(** [filepath.Base(path)]. *)
Definition Base (path : string) : string :=
  if String.eqb path "" then "."
  else
    let stripped := stripSeparators (rev (list_ascii_of_string path)) in
    let last := string_of_list_ascii (rev (untilSeparator stripped)) in
    if String.eqb last "" then "/" else last.

(** The loop of [filepath.Ext]: [l] is the path read from its end, [seen]
    the bytes already passed, in the order of the path. *)
Fixpoint Ext_loop (l : list ascii) (seen : list ascii) : string :=
  match l with
  | [] => ""
  | c :: l' =>
      if isPathSeparator c then ""
      else if Ascii.eqb c "." then string_of_list_ascii (c :: seen)
      else Ext_loop l' (c :: seen)
  end.

(** [filepath.Ext(path)]. *)
Definition Ext (path : string) : string :=
  Ext_loop (rev (list_ascii_of_string path)) [].

(** [filepath.Join(dir, name)] as [WalkDir] calls it: [dir] is a clean path
    and [name] a name listed by [ReadDir]. *)
Definition Join (dir name : string) : string :=
  if String.eqb dir "/" then "/" +:+ name else dir +:+ "/" +:+ name.

(** [filepath.walkDir]. [fn] is the [fs.WalkDirFunc]; it is called with a nil
    entry only by [WalkDir], together with the error of [Lstat]. The two
    sentinel errors [SkipDir] and [SkipAll] are left out: they are values of
    package [io/fs] that no call of this program returns. *)
Fixpoint walkDir {S : Type}
    (fn : string -> option DirEntry -> option error -> S -> S * option error)
    (path : string) (d : DirEntry) (st : S) {struct d} : S * option error :=
  match fn path (Some d) None st with
  | (st1, Some err) => (st1, Some err)
  | (st1, None) =>
      match d with
      | File _ _ => (st1, None)
      | Dir _ readdir dirs =>
          let reported :=
            match readdir with
            | Some err => fn path (Some d) (Some err) st1
            | None => (st1, None)
            end in
          match reported with
          | (st2, Some err) => (st2, Some err)
          | (st2, None) =>
              (fix walkEntries (dirs : list DirEntry) (st : S) : S * option error :=
                 match dirs with
                 | [] => (st, None)
                 | d1 :: rest =>
                     match walkDir fn (Join path (DirEntryName d1)) d1 st with
                     | (st', Some err) => (st', Some err)
                     | (st', None) => walkEntries rest st'
                     end
                 end) dirs st2
          end
      end
  end.

(** [filepath.WalkDir(root, fn)]; [lstat] is the answer of [os.Lstat(root)]. *)
Definition WalkDir {S : Type} (lstat : error + DirEntry) (root : string)
    (fn : string -> option DirEntry -> option error -> S -> S * option error)
    (st : S) : S * option error :=
  match lstat with
  | inl err => fn root None (Some err) st
  | inr d => walkDir fn root d st
  end.

(** ** [getToolInfos] *)

Section Package.

Variable w : World.
Variable codec : JSONCodec.

(** The statements of [getToolInfos] between [cmd.Start()] and the parsing
    of the response; every return among them is preceded by
    [cmd.Process.Kill()], which [getToolInfos] below appends. *)
Definition getToolInfos_exchange (mcpPath : string) : Session string :=
  let initLine := initMsg +:+ newline in
  let listLine := listMsg +:+ newline in
  _ <~ emit (EvStdin mcpPath initLine) ;
  _ <~ check "failed to send initialize message: " (Write w mcpPath [] initLine) ;
  _ <~ emit (EvStdout mcpPath) ;
  _ <~ checked "failed to read initialize response: " (Read w mcpPath [initLine]) ;
  _ <~ emit (EvStdin mcpPath listLine) ;
  _ <~ check "failed to send tools/list message: "
        (Write w mcpPath [initLine] listLine) ;
  _ <~ emit (EvStdout mcpPath) ;
  checked "failed to read tools/list response: "
          (Read w mcpPath [initLine; listLine]).

Definition getToolInfos_session (mcpPath : string) : Session (list ToolInfo) :=
  _ <~ check "failed to get stdin pipe: " (StdinPipe w mcpPath) ;
  _ <~ check "failed to get stdout pipe: " (StdoutPipe w mcpPath) ;
  _ <~ check "failed to start MCP: " (Start w mcpPath) ;
  _ <~ emit (EvStart mcpPath) ;
  let '(evs, r) := getToolInfos_exchange mcpPath in
  response <~ ((evs ++ [EvKill mcpPath])%list, r) ;
  checked "failed to parse tools/list response: "
          (Unmarshal_tools codec response).

(** [getToolInfos(mcpPath)]: the Go pair and the events. *)
Definition getToolInfos (mcpPath : string)
  : list ToolInfo * option error * list Event :=
  match getToolInfos_session mcpPath with
  | (evs, inl err) => ([], Some err, evs)
  | (evs, inr tools) => (tools, None, evs)
  end.

(** ** [ExecuteTool] *)

(** [callRequest], the map literal [ExecuteTool] marshals. *)
Definition callRequest (localToolName : string)
    (parameters : option (list (string * JSON))) : any :=
  AMap [("jsonrpc", AString "2.0");
        ("id", AInt 2);
        ("method", AString "tools/call");
        ("params", AMap [("name", AString localToolName);
                         ("arguments", AArguments parameters)])].

(** The statements after [defer cmd.Process.Kill()]. *)
Definition ExecuteTool_exchange (path localToolName : string)
    (parameters : option (list (string * JSON))) : Session JSON :=
  let initLine := initMsg +:+ newline in
  _ <~ emit (EvStdin path initLine) ;
  _ <~ check "failed to send initialize message: " (Write w path [] initLine) ;
  _ <~ emit (EvStdout path) ;
  _ <~ checked "failed to read initialize response: " (Read w path [initLine]) ;
  let '(callJSON, err) := Marshal codec (callRequest localToolName parameters) in
  _ <~ check "failed to marshal tools/call request: " err ;
  let callLine := callJSON +:+ newline in
  _ <~ emit (EvStdin path callLine) ;
  _ <~ check "failed to send tools/call message: " (Write w path [initLine] callLine) ;
  _ <~ emit (EvStdout path) ;
  response <~ checked "failed to read tools/call response: "
                      (Read w path [initLine; callLine]) ;
  resp <~ checked "failed to parse tools/call response: "
                  (Unmarshal_response codec response) ;
  match RespError resp with
  | Some e =>
      ([], inl (errorString ("MCP tool error: " +:+ Message e +:+ " (code "
                               +:+ Itoa (Code e) +:+ ")")))
  | None => ret (Result resp)
  end.

Definition ExecuteTool_session (m : MCPManager) (toolName : string)
    (parameters : option (list (string * JSON))) : Session JSON :=
  match GetMCPForTool m toolName with
  | (_, _, Some err) => ([], inl err)
  | (None, _, None) =>
      (* [mcpInfo.Path] on a nil pointer; [GetMCPForTool_endpoint] shows that
         [GetMCPForTool] never returns this *)
      ([], inl (errorString "runtime error: invalid memory address or nil pointer dereference"))
  | (Some mcpInfo, localToolName, None) =>
      _ <~ check "failed to get stdin pipe: " (StdinPipe w (Path mcpInfo)) ;
      _ <~ check "failed to get stdout pipe: " (StdoutPipe w (Path mcpInfo)) ;
      _ <~ check "failed to start MCP: " (Start w (Path mcpInfo)) ;
      _ <~ emit (EvStart (Path mcpInfo)) ;
      let '(evs, r) :=
        ExecuteTool_exchange (Path mcpInfo) localToolName parameters in
      ((evs ++ [EvKill (Path mcpInfo)])%list, r)
  end.

(** [ExecuteTool(ctx, toolName, parameters)]: the Go pair and the events. *)
Definition ExecuteTool (m : MCPManager) (toolName : string)
    (parameters : option (list (string * JSON)))
  : JSON * option error * list Event :=
  match ExecuteTool_session m toolName parameters with
  | (evs, inl err) => (JNull, Some err, evs)
  | (evs, inr result) => (result, None, evs)
  end.

(** ** [GetAllTools] in the order the runtime ranges over the map *)

Definition GetAllTools (m : MCPManager) : list ToolInfo :=
  GetAllTools_range (mapRange w (mcpMap m)).

(** ** The dispatcher of [server.go] *)

(** [MCPServer]; its [server] field (the [mcp-go] server behind
    [ServeStdio]) takes no part in [ProcessRequest]. *)
Record MCPServer : Type := mkMCPServer {
  mcpManager : MCPManager
}.

Definition handleToolsList (s : MCPServer) (id : JSON)
  : string * option error :=
  let tools := GetAllTools (mcpManager s) in
  let response :=
    AMap [("jsonrpc", AString "2.0");
          ("id", AJSON id);
          ("result", AMap [("tools", ATools tools)])] in
  Marshal codec response.

(** The two frames of [handleToolsCall]. *)
Definition errorResponse (id : JSON) (err : error) : any :=
  AMap [("jsonrpc", AString "2.0");
        ("id", AJSON id);
        ("error", AMap [("code", AInt (-32000));
                        ("message",
                         AString ("Failed to execute tool: " +:+ Error err))])].

Definition successResponse (id : JSON) (result : JSON) : any :=
  AMap [("jsonrpc", AString "2.0");
        ("id", AJSON id);
        ("result", AJSON result)].

Definition handleToolsCall (s : MCPServer) (id : JSON) (rawRequest : string)
  : string * option error * list Event :=
  match Unmarshal_params codec rawRequest with
  | inl err => ("", Some (Errorf_w "failed to parse request: " err), [])
  | inr params =>
      match ExecuteTool (mcpManager s) (ParamsName params) (Arguments params) with
      | (_, Some err, evs) => (Marshal codec (errorResponse id err), evs)
      | (result, None, evs) => (Marshal codec (successResponse id result), evs)
      end
  end.

Definition ProcessRequest (s : MCPServer) (rawRequest : string)
  : string * option error * list Event :=
  match Unmarshal_request codec rawRequest with
  | inl err => ("", Some (Errorf_w "failed to parse request: " err), [])
  | inr request =>
      if String.eqb (Method request) "tools/list" then
        (handleToolsList s (ID request), [])
      else if String.eqb (Method request) "tools/call" then
        handleToolsCall s (ID request) rawRequest
      else
        ("", Some (errorString ("method not implemented: " +:+ Method request)), [])
  end.

(** ** [LoadMCPs] *)

(** The identifier of a provider: the base name without its extension. *)
Definition providerName (path : string) : string :=
  let name := Base path in
  let ext := Ext name in
  if negb (String.eqb ext "") then
    slice name 0 (String.length name - String.length ext)
  else name.

(** The function literal [LoadMCPs] passes to [filepath.WalkDir]; the state
    is [m.mcpMap] and the events so far. *)
Definition LoadMCPs_fn (path : string) (d : option DirEntry) (err : option error)
    (st : gmap string MCPInfo * list Event)
  : gmap string MCPInfo * list Event * option error :=
  match err, d with
  | Some err, _ => (st, Some err)
  | None, None =>
      (* [d.IsDir()] on a nil entry; [WalkDir] passes a nil entry only with
         an error *)
      (st, Some (errorString "runtime error: invalid memory address or nil pointer dereference"))
  | None, Some d =>
      if IsDir d then (st, None)
      else
        match Info d with
        | inl err => (st, Some err)
        | inr mode =>
            if (N.land mode 73 =? 0)%N (* 0111 *) then (st, None)
            else
              let name := providerName path in
              let '(toolInfos, err, evs) := getToolInfos path in
              let '(tools, warning) :=
                match err with
                | Some err =>
                    ([], [EvStderr ("Warning: Failed to get tool info for "
                                      +:+ path +:+ ": " +:+ Error err +:+ newline)])
                | None => (toolInfos, [])
                end in
              let mcpInfo :=
                {| MCPName := name; Path := path; ToolInfos := tools |} in
              ((<[name := mcpInfo]> (fst st),
                (snd st ++ evs ++ warning
                   ++ [EvStderr ("Loaded MCP: " +:+ name +:+ " from " +:+ path
                                   +:+ " with "
                                   +:+ Itoa (Z.of_nat (length (ToolInfos mcpInfo)))
                                   +:+ " tools" +:+ newline)])%list),
               None)
        end
  end.

(** [LoadMCPs()]: the manager after the call, the error returned and the
    events. *)
Definition LoadMCPs (m : MCPManager) : MCPManager * option error * list Event :=
  let '(mcpMap', evs, err) :=
    WalkDir (Lstat w (mcpDirectory m)) (mcpDirectory m) LoadMCPs_fn (∅, []) in
  ({| mcpMap := mcpMap'; mcpDirectory := mcpDirectory m |}, err, evs).

(** [NewMCPServer(mcpDirectory, name, version)]. *)
Definition NewMCPServer (mcpDirectory : string)
  : option MCPServer * option error * list Event :=
  match LoadMCPs (NewMCPManager mcpDirectory) with
  | (_, Some err, evs) => (None, Some (Errorf_w "failed to load MCPs: " err), evs)
  | (mcpManager, None, evs) => (Some {| mcpManager := mcpManager |}, None, evs)
  end.

End Package.

(** ** Vocabulary of the statements about [LoadMCPs] *)

(** [info.Mode()&0111 != 0] for the answer of [d.Info()]. *)
Definition executable (info : error + N) : bool :=
  match info with
  | inl _ => false
  | inr mode => negb (N.land mode 73 =? 0)%N
  end.




(** The paths of the entries under [d] (at [path]) that are not directories
    and have an executable bit, in the order of the walk. *)
Fixpoint candidates (path : string) (d : DirEntry) : list string :=
  match d with
  | File _ info => if executable info then [path] else []
  | Dir _ _ dirs =>
      flat_map (fun d1 => candidates (Join path (DirEntryName d1)) d1) dirs
  end.

(** No call of [d.Info()] or [os.ReadDir] under [d] fails. *)
Fixpoint readable (d : DirEntry) : bool :=
  match d with
  | File _ (inl _) => false
  | File _ (inr _) => true
  | Dir _ (Some _) _ => false
  | Dir _ None dirs => forallb readable dirs
  end.

(** The catalog [LoadMCPs] stores for the executable at [path]. *)
Definition discovered (w : World) (codec : JSONCodec) (path : string)
  : list ToolInfo :=
  match getToolInfos w codec path with
  | (toolInfos, None, _) => toolInfos
  | (_, Some _, _) => []
  end.

(** The endpoint [LoadMCPs] stores for the executable at [path]. *)
Definition endpointOf (w : World) (codec : JSONCodec) (path : string) : MCPInfo :=
  {| MCPName := providerName path;
     Path := path;
     ToolInfos := discovered w codec path |}.

Definition register (w : World) (codec : JSONCodec)
    (mcpMap : gmap string MCPInfo) (path : string) : gmap string MCPInfo :=
  <[providerName path := endpointOf w codec path]> mcpMap.


(** ** The mutex: [LoadMCPs] against concurrent [GetAllTools]

    One goroutine runs [LoadMCPs], any number run [GetAllTools]; a step of
    the system is a step of one of them. [m.mutex] is a [sync.RWMutex]:
    [Lock] waits until no goroutine holds it, [RLock] until no writer holds
    it. The reload is given by its [plan], the assignments
    [m.mcpMap[name] = mcpInfo] that its walk performs, in order. A reader
    visits the entries of the map one step at a time, each step reading the
    shared map as it is then. *)
Module Locking.

Inductive writer : Type :=
| WStart                                     (* before [m.mutex.Lock()] *)
| WLocked                                    (* before [m.mcpMap = make(...)] *)
| WWalk (rest : list (string * MCPInfo))     (* in [filepath.WalkDir] *)
| WReturned.                                 (* after the deferred [Unlock] *)

Inductive reader : Type :=
| RStart                                     (* before [m.mutex.RLock()] *)
| RLocked (visited : list (string * MCPInfo)) (* in the [range] loop *)
| RReturned (allTools : list ToolInfo).      (* after the deferred [RUnlock] *)

Record RWMutex : Type := mkRWMutex {
  writerHeld : bool;
  readerCount : nat
}.

Record state : Type := mkState {
  shared : gmap string MCPInfo;   (* [m.mcpMap] *)
  mutex : RWMutex;                (* [m.mutex] *)
  reload : writer;
  reads : list reader
}.

Inductive action : Type :=
| Lock | Clear | Assign | Unlock
| RLock (i : nat) | Visit (i : nat) (mcpName : string) | RUnlock (i : nat).

(** One step of goroutine [a] from [s], if it can take it. *)
Definition exec (plan : list (string * MCPInfo)) (a : action) (s : state)
  : option state :=
  match a with
  | Lock =>
      match reload s with
      | WStart =>
          if negb (writerHeld (mutex s)) && (readerCount (mutex s) =? 0)%nat
          then Some {| shared := shared s;
                       mutex := {| writerHeld := true;
                                   readerCount := readerCount (mutex s) |};
                       reload := WLocked;
                       reads := reads s |}
          else None
      | _ => None
      end
  | Clear =>
      match reload s with
      | WLocked =>
          Some {| shared := ∅; mutex := mutex s;
                  reload := WWalk plan; reads := reads s |}
      | _ => None
      end
  | Assign =>
      match reload s with
      | WWalk ((name, mcpInfo) :: rest) =>
          Some {| shared := <[name := mcpInfo]> (shared s); mutex := mutex s;
                  reload := WWalk rest; reads := reads s |}
      | _ => None
      end
  | Unlock =>
      match reload s with
      | WWalk [] =>
          Some {| shared := shared s;
                  mutex := {| writerHeld := false;
                              readerCount := readerCount (mutex s) |};
                  reload := WReturned;
                  reads := reads s |}
      | _ => None
      end
  | RLock i =>
      match reads s !! i with
      | Some RStart =>
          if negb (writerHeld (mutex s))
          then Some {| shared := shared s;
                       mutex := {| writerHeld := writerHeld (mutex s);
                                   readerCount := S (readerCount (mutex s)) |};
                       reload := reload s;
                       reads := <[i := RLocked []]> (reads s) |}
          else None
      | _ => None
      end
  | Visit i mcpName =>
      match reads s !! i with
      | Some (RLocked visited) =>
          if bool_decide (mcpName ∈ visited.*1) then None
          else
            match shared s !! mcpName with
            | Some mcpInfo =>
                Some {| shared := shared s; mutex := mutex s;
                        reload := reload s;
                        reads := <[i := RLocked (visited ++ [(mcpName, mcpInfo)])]>
                                   (reads s) |}
            | None => None
            end
      | _ => None
      end
  | RUnlock i =>
      match reads s !! i with
      | Some (RLocked visited) =>
          if forallb (fun mcpName => bool_decide (mcpName ∈ visited.*1))
                     (map_to_list (shared s)).*1
          then Some {| shared := shared s;
                       mutex := {| writerHeld := writerHeld (mutex s);
                                   readerCount := pred (readerCount (mutex s)) |};
                       reload := reload s;
                       reads := <[i := RReturned (GetAllTools_range visited)]>
                                  (reads s) |}
          else None
      | _ => None
      end
  end.

Definition step (plan : list (string * MCPInfo)) (s s' : state) : Prop :=
  exists a, exec plan a s = Some s'.

(** A schedule run from [s]. *)
Fixpoint run (plan : list (string * MCPInfo)) (schedule : list action)
    (s : state) : option state :=
  match schedule with
  | [] => Some s
  | a :: schedule' =>
      match exec plan a s with
      | Some s' => run plan schedule' s'
      | None => None
      end
  end.

(** [n] readers and the reload, none started, on the registry [pre]. *)
Definition init (pre : gmap string MCPInfo) (n : nat) : state :=
  {| shared := pre;
     mutex := {| writerHeld := false; readerCount := 0 |};
     reload := WStart;
     reads := replicate n RStart |}.

(** The registry after the reload. *)
Definition post (plan : list (string * MCPInfo)) : gmap string MCPInfo :=
  fold_left (fun mcpMap entry => <[entry.1 := entry.2]> mcpMap) plan ∅.

(** The number of readers in their loop. *)
Fixpoint readLocks (rs : list reader) : nat :=
  match rs with
  | [] => 0
  | RLocked _ :: rs' => S (readLocks rs')
  | _ :: rs' => readLocks rs'
  end.

Definition locked (r : reader) : nat :=
  match r with RLocked _ => 1 | _ => 0 end.

(** What holds of a reader when the shared map is [sh]. *)
Definition reader_ok (pre : gmap string MCPInfo) (plan : list (string * MCPInfo))
    (sh : gmap string MCPInfo) (r : reader) : Prop :=
  match r with
  | RStart => True
  | RLocked visited =>
      NoDup visited.*1
      /\ forall mcpName mcpInfo,
           (mcpName, mcpInfo) ∈ visited -> sh !! mcpName = Some mcpInfo
  | RReturned allTools =>
      exists snapshot visit,
        (snapshot = pre \/ snapshot = post plan)
        /\ visit ≡ₚ map_to_list snapshot
        /\ allTools = GetAllTools_range visit
  end.

(** The invariant of the system. *)
Definition inv (pre : gmap string MCPInfo) (plan : list (string * MCPInfo))
    (s : state) : Prop :=
  writerHeld (mutex s)
    = match reload s with WLocked | WWalk _ => true | _ => false end
  /\ readerCount (mutex s) = readLocks (reads s)
  /\ (writerHeld (mutex s) = true -> readerCount (mutex s) = 0)
  /\ match reload s with
     | WStart => shared s = pre
     | WLocked => True
     | WWalk rest =>
         exists assigned, plan = (assigned ++ rest)%list /\ shared s = post assigned
     | WReturned => shared s = post plan
     end
  /\ Forall (reader_ok pre plan (shared s)) (reads s).

End Locking.

(** ** Examples: the two providers of the repository

    The worlds of the examples run [hello-mcp] and [calculator-mcp] of
    [examples/]. [exampleCodec] stands for [encoding/json] on the messages
    of these worlds: it writes values out, and reads back the messages
    listed here. *)
Module Examples.

Fixpoint joinComma (parts : list string) : string :=
  match parts with
  | [] => ""
  | [part] => part
  | part :: parts' => part +:+ "," +:+ joinComma parts'
  end.

Definition object (fields : list (string * string)) : string :=
  "{" +:+ joinComma (map (fun field => quoted field.1 +:+ ":" +:+ field.2) fields)
      +:+ "}".

Definition array (elems : list string) : string :=
  "[" +:+ joinComma elems +:+ "]".

Fixpoint renderJSON (v : JSON) : string :=
  match v with
  | JNull => "null"
  | JBool true => "true"
  | JBool false => "false"
  | JNumber literal => literal
  | JString s => quoted s
  | JArray elems => array (map renderJSON elems)
  | JObject fields =>
      object (map (fun field => (field.1, renderJSON field.2)) fields)
  end.

Definition renderTool (tool : ToolInfo) : string :=
  object ([("name", quoted (Name tool))]
            ++ (if String.eqb (Description tool) "" then []
                else [("description", quoted (Description tool))])
            ++ (match Parameters tool with
                | [] => []
                | fields => [("parameters", renderJSON (JObject fields))]
                end))%list.

Fixpoint render (v : any) : string :=
  match v with
  | AJSON j => renderJSON j
  | AInt n => Itoa n
  | AString s => quoted s
  | ATools tools => array (map renderTool tools)
  | AArguments None => "null"
  | AArguments (Some fields) => renderJSON (JObject fields)
  | AMap fields => object (map (fun field => (field.1, render field.2)) fields)
  end.

(** The tools of the two providers. *)
Definition helloTools : list ToolInfo :=
  [{| Name := "hello"; Description := "Say hello"; Parameters := [] |}].

Definition calculatorTools : list ToolInfo :=
  [{| Name := "add"; Description := "Add two numbers"; Parameters := [] |};
   {| Name := "multiply"; Description := "Multiply two numbers"; Parameters := [] |};
   {| Name := "divide"; Description := "Divide two numbers"; Parameters := [] |}].

(** The messages of the providers. *)
Definition response (id : string) (key body : string) : string :=
  object [("jsonrpc", quoted "2.0"); ("id", id); (key, body)].

Definition initResponse : string :=
  response "1" "result" (object [("protocolVersion", quoted "2024-11-05")]).

Definition toolsResponse (tools : list ToolInfo) : string :=
  response "2" "result" (object [("tools", array (map renderTool tools))]).

Definition divideByZero : RPCError :=
  {| Code := -1; Message := "cannot divide by zero" |}.

Definition errorReply : string :=
  response "2" "error"
    (object [("code", Itoa (Code divideByZero));
             ("message", quoted (Message divideByZero))]).

Definition thirty : JSON :=
  JObject [("content",
            JArray [JObject [("type", JString "text"); ("text", JString "30.00")]])].

Definition resultReply : string := response "2" "result" (renderJSON thirty).

(** The requests of the examples. *)
Definition arguments (x y : string) : option (list (string * JSON)) :=
  Some [("x", JNumber x); ("y", JNumber y)].

Definition callLine (localToolName : string)
    (parameters : option (list (string * JSON))) : string :=
  render (callRequest localToolName parameters) +:+ newline.

Definition inbound (id method : string) (params : list (string * string)) : string :=
  object ([("jsonrpc", quoted "2.0"); ("id", id); ("method", quoted method)]
            ++ params)%list.

Definition callParams (name : string) (x y : string) : list (string * string) :=
  [("params", object [("name", quoted name);
                      ("arguments", object [("x", x); ("y", y)])])].

Definition rawDivide : string :=
  inbound "7" "tools/call" (callParams "calculator-mcp.divide" "5" "0").
Definition rawAdd : string :=
  inbound "8" "tools/call" (callParams "calculator-mcp.add" "10" "20").
Definition rawGhost : string :=
  inbound "9" "tools/call" (callParams "ghost.doSomething" "1" "2").
Definition rawInitialize : string := inbound "1" "initialize" [].
Definition rawList : string := inbound "3" "tools/list" [].

Definition syntaxError : error :=
  errorString "unexpected end of JSON input".

(** [sel s table]: the value [table] lists for the message [s]. *)
Fixpoint sel {A : Type} (s : string) (table : list (string * A)) : error + A :=
  match table with
  | [] => inl syntaxError
  | (message, value) :: table' =>
      if String.eqb s message then inr value else sel s table'
  end.

Definition exampleCodec : JSONCodec :=
  {| Unmarshal_tools s :=
       sel s [(toolsResponse helloTools, helloTools);
              (toolsResponse calculatorTools, calculatorTools)];
     Unmarshal_response s :=
       sel s [(errorReply, {| Result := JNull; RespError := Some divideByZero |});
              (resultReply, {| Result := thirty; RespError := None |})];
     Unmarshal_request s :=
       sel s [(rawDivide, {| JSONRPC := "2.0"; ID := JNumber "7"; Method := "tools/call" |});
              (rawAdd, {| JSONRPC := "2.0"; ID := JNumber "8"; Method := "tools/call" |});
              (rawGhost, {| JSONRPC := "2.0"; ID := JNumber "9"; Method := "tools/call" |});
              (rawInitialize, {| JSONRPC := "2.0"; ID := JNumber "1"; Method := "initialize" |});
              (rawList, {| JSONRPC := "2.0"; ID := JNumber "3"; Method := "tools/list" |})];
     Unmarshal_params s :=
       sel s [(rawDivide, {| ParamsName := "calculator-mcp.divide"; Arguments := arguments "5" "0" |});
              (rawAdd, {| ParamsName := "calculator-mcp.add"; Arguments := arguments "10" "20" |});
              (rawGhost, {| ParamsName := "ghost.doSomething"; Arguments := arguments "1" "2" |});
              (rawInitialize, {| ParamsName := ""; Arguments := None |})];
     Marshal v := (render v, None) |}.

(** What the program at [path] answers after the writes [sent]: the
    provider is told by the base name of its file without extension. *)
Definition answer (path : string) (sent : list string) : error + string :=
  match last sent with
  | None => inl (errorString "EOF")
  | Some line =>
      if String.eqb line (initMsg +:+ newline) then inr initResponse
      else if String.eqb line (listMsg +:+ newline) then
        if String.eqb (providerName path) "hello-mcp"
        then inr (toolsResponse helloTools)
        else if String.eqb (providerName path) "calculator-mcp"
        then inr (toolsResponse calculatorTools)
        else inl (errorString "EOF")
      else if String.eqb (providerName path) "calculator-mcp" then
        if String.eqb line (callLine "divide" (arguments "5" "0"))
        then inr errorReply
        else if String.eqb line (callLine "add" (arguments "10" "20"))
        then inr resultReply
        else inl (errorString "EOF")
      else inl (errorString "EOF")
  end.

(** The world in which [Lstat] finds [tree] at ["/mcps"] and the files
    [broken] do not start. *)
Definition world (tree : DirEntry) (broken : list string) : World :=
  {| Lstat path :=
       if String.eqb path "/mcps" then inr tree
       else inl (errorString ("lstat " +:+ path +:+ ": no such file or directory"));
     StdinPipe _ := None;
     StdoutPipe _ := None;
     Start path :=
       if bool_decide (path ∈ broken)
       then Some (errorString ("fork/exec " +:+ path +:+ ": exec format error"))
       else None;
     Write _ _ _ := None;
     Read := answer;
     mapRange m := map_to_list m |}.

Definition rwxr_xr_x : N := 493. (* 0755 *)

(** Scenario A of the specification: the two providers side by side. *)
Definition twoProviders : DirEntry :=
  Dir "mcps" None
    [File "calculator-mcp" (inr rwxr_xr_x); File "hello-mcp" (inr rwxr_xr_x)].


(** Two files with one identifier; the first does not start. *)
Definition twins : DirEntry :=
  Dir "mcps" None
    [File "calculator-mcp" (inr rwxr_xr_x);
     File "calculator-mcp.sh" (inr rwxr_xr_x)].

(** [hello-mcp] does not start. *)
Definition helloBroken : World := world twoProviders ["/mcps/hello-mcp"].

(** A provider whose file name has two dots. *)
Definition dotted : DirEntry :=
  Dir "mcps" None [File "calc.v2.bin" (inr rwxr_xr_x)].

(** The registry [LoadMCPs] builds in a world. *)
Definition loaded (w : World) : MCPManager :=
  (LoadMCPs w exampleCodec (NewMCPManager "/mcps")).1.1.

Definition calculatorEndpoint : MCPInfo :=
  {| MCPName := "calculator-mcp";
     Path := "/mcps/calculator-mcp";
     ToolInfos := calculatorTools |}.

(** The scenario itself, and its registry. *)
Definition scenario : World := world twoProviders [].
Definition registry : MCPManager := loaded scenario.

(** A registry with an older [hello-mcp] alone, its reload to the two
    providers, and a read on either side of the reload. *)
Definition before : gmap string MCPInfo :=
  {[ "hello-mcp" :=
       {| MCPName := "hello-mcp"; Path := "/mcps/hello-mcp"; ToolInfos := [] |} ]}.

Definition reloadPlan : list (string * MCPInfo) :=
  [("calculator-mcp", calculatorEndpoint);
   ("hello-mcp",
    {| MCPName := "hello-mcp"; Path := "/mcps/hello-mcp"; ToolInfos := helloTools |})].

Definition schedule : list Locking.action :=
  [Locking.RLock 0; Locking.Visit 0 "hello-mcp"; Locking.RUnlock 0;
   Locking.Lock; Locking.Clear; Locking.Assign; Locking.Assign; Locking.Unlock;
   Locking.RLock 1; Locking.Visit 1 "hello-mcp"; Locking.Visit 1 "calculator-mcp";
   Locking.RUnlock 1].

End Examples.

(** ** Processes, one at a time *)

(** An event of the exchange with the child started from [path]. *)
Definition exchange (path : string) (ev : Event) : Prop :=
  ev = EvStdout path \/ exists data, ev = EvStdin path data.

(** A run in which every child is started, exchanged with and killed before
    anything else happens: no two children live at once, none outlives the
    run, and no pipe is used outside the life of its child. *)
Inductive bracketed : list Event -> Prop :=
| bracketed_nil : bracketed []
| bracketed_stderr (text : string) (evs : list Event) :
    bracketed evs -> bracketed (EvStderr text :: evs)
| bracketed_child (path : string) (mid evs : list Event) :
    Forall (exchange path) mid ->
    bracketed evs ->
    bracketed (EvStart path :: mid ++ EvKill path :: evs).

(** The children started in a run, in order. *)
Definition started (evs : list Event) : list string :=
  omap (fun ev => match ev with EvStart path => Some path | _ => None end) evs.

(** The handshake of [getToolInfos] and that of [ExecuteTool] with the
    marshalled call [callJSON]. *)
Definition discoveryScript (path : string) : list Event :=
  [EvStdin path (initMsg +:+ newline); EvStdout path;
   EvStdin path (listMsg +:+ newline); EvStdout path].

Definition callScript (path callJSON : string) : list Event :=
  [EvStdin path (initMsg +:+ newline); EvStdout path;
   EvStdin path (callJSON +:+ newline); EvStdout path].

(** ** [ServeHTTP]: the handler *)

(** What the handler writes to its [http.ResponseWriter]. *)
Record HTTPResponse : Type := mkHTTPResponse {
  StatusCode : Z;
  ContentType : string;
  Body : string
}.

(** [http.Error(w, msg, code)]. *)
Definition httpError (msg : string) (code : Z) : HTTPResponse :=
  {| StatusCode := code;
     ContentType := "text/plain; charset=utf-8";
     Body := msg +:+ newline |}.

(** The [http.HandlerFunc] of [ServeHTTP], on a request with method [method]
    whose body [io.ReadAll] reads as [body]. *)
Definition ServeHTTP_handler (w : World) (codec : JSONCodec) (s : MCPServer)
    (method : string) (body : error + string) : HTTPResponse * list Event :=
  if negb (String.eqb method "POST") then
    (httpError "Method not allowed" 405, [])
  else
    match body with
    | inl _ => (httpError "Failed to read request body" 400, [])
    | inr body =>
        match ProcessRequest w codec s body with
        | (_, Some err, evs) =>
            (httpError ("Failed to process request: " +:+ Error err) 500, evs)
        | (response, None, evs) =>
            ({| StatusCode := 200;
                ContentType := "application/json";
                Body := response |}, evs)
        end
    end.

(** ** The proxy of [cmd/mcp-proxy] *)

(** [MCPProxy] without its mutex; [timeoutSeconds] is the timeout of the
    [http.Client]. *)
Record MCPProxy : Type := mkMCPProxy {
  httpEndpoint : string;
  contentType : string;
  timeoutSeconds : Z
}.

Definition NewMCPProxy (httpEndpoint contentType : string) (timeoutSeconds : Z)
  : MCPProxy :=
  {| httpEndpoint := httpEndpoint;
     contentType := contentType;
     timeoutSeconds := timeoutSeconds |}.

(** The answer of the endpoint: the status and what [io.ReadAll(resp.Body)]
    gives. *)
Record Reply : Type := mkReply {
  Status : Z;
  ReplyBody : error + string
}.

(** The network and the standard output of the proxy.
    - [NewRequest endpoint]: the error of [http.NewRequestWithContext].
    - [Do proxy body]: [p.httpClient.Do(req)] for the request built from
      [body]: an error (the timeout included) or the reply.
    - [StdoutWrite data]: the error of [stdout.Write(data)]. *)
Record Net : Type := mkNet {
  NewRequest : string -> option error;
  Do : MCPProxy -> string -> error + Reply;
  StdoutWrite : string -> option error
}.

(** [MCPProxy.ProcessRequest]. *)
Definition Proxy_ProcessRequest (net : Net) (p : MCPProxy) (request : string)
  : string * option error :=
  match NewRequest net (httpEndpoint p) with
  | Some err => ("", Some (Errorf_w "failed to create HTTP request: " err))
  | None =>
      match Do net p request with
      | inl err => ("", Some (Errorf_w "failed to send HTTP request: " err))
      | inr resp =>
          if negb (Status resp =? 200)%Z then
            ("", Some (errorString ("received non-OK response: "
                                      +:+ Itoa (Status resp))))
          else
            match ReplyBody resp with
            | inl err => ("", Some (Errorf_w "failed to read response body: " err))
            | inr body => (body, None)
            end
      end
  end.

(** One turn of the loop of [main]: the [select] finds [ctx.Done()] ready
    (the goroutine of the signals has cancelled the context on SIGINT or
    SIGTERM), or it takes its [default] arm and [stdin.Read(buffer)] answers
    [io.EOF], another error, or the bytes [buffer[:n]]. *)
Inductive Turn : Type :=
| Cancelled
| EOF
| ReadError (err : error)
| Chunk (data : string).

(** What the loop has done: the writes to standard output that returned
    nil, the lines the loop itself writes to standard error (the goroutine
    of the signals writes its own), and whether [main] has returned. *)
Record ProxyRun : Type := mkProxyRun {
  written : list string;
  logged : list string;
  returned : bool
}.

(** The loop of [main] on its successive turns [reads]; when they are used
    up the loop has not returned: it is waiting in [stdin.Read]. *)
Fixpoint proxyLoop (net : Net) (p : MCPProxy) (reads : list Turn)
  : ProxyRun :=
  match reads with
  | [] => {| written := []; logged := []; returned := false |}
  | Cancelled :: _ =>
      {| written := [];
         logged := ["MCP Proxy shutting down" +:+ newline];
         returned := true |}
  | EOF :: _ => {| written := []; logged := []; returned := true |}
  | ReadError err :: _ =>
      {| written := [];
         logged := ["Error reading from stdin: " +:+ Error err +:+ newline];
         returned := true |}
  | Chunk data :: reads' =>
      if (0 <? String.length data)%nat then
        match Proxy_ProcessRequest net p data with
        | (_, Some err) =>
            let rest := proxyLoop net p reads' in
            {| written := written rest;
               logged := ("Error processing request: " +:+ Error err +:+ newline)
                           :: logged rest;
               returned := returned rest |}
        | (response, None) =>
            match StdoutWrite net response with
            | Some err =>
                {| written := [];
                   logged := ["Error writing to stdout: " +:+ Error err +:+ newline];
                   returned := true |}
            | None =>
                let rest := proxyLoop net p reads' in
                {| written := response :: written rest;
                   logged := logged rest;
                   returned := returned rest |}
            end
        end
      else proxyLoop net p reads'
  end.

(** The proxy in front of the server: the endpoint answers as the handler
    of [ServeHTTP] does, and standard output takes every write. *)
Definition serverNet (w : World) (codec : JSONCodec) (s : MCPServer) : Net :=
  {| NewRequest _ := None;
     Do _ body :=
       let '(resp, _) := ServeHTTP_handler w codec s "POST" (inr body) in
       inr {| Status := StatusCode resp; ReplyBody := inr (Body resp) |};
     StdoutWrite _ := None |}.

(** The bytes read in the turns before the first one that ends the loop:
    the cancellation of the context, [io.EOF] or an error of [stdin.Read]. *)
Fixpoint chunks (reads : list Turn) : list string :=
  match reads with
  | Chunk data :: reads' => data :: chunks reads'
  | _ => []
  end.

(** What the proxy writes for one chunk: the body of the answer to a chunk
    that is not empty and whose request succeeds. *)
Definition forwarded (net : Net) (p : MCPProxy) (data : string) : option string :=
  if (0 <? String.length data)%nat then
    match Proxy_ProcessRequest net p data with
    | (response, None) => Some response
    | (_, Some _) => None
    end
  else None.

(** ** Examples: the proxy in front of the server of the scenario *)
Module ProxyExamples.

Definition server : MCPServer := {| mcpManager := Examples.registry |}.

Definition net : Net := serverNet Examples.scenario Examples.exampleCodec server.

Definition proxy : MCPProxy :=
  NewMCPProxy "http://localhost:8080" "application/json" 30.

(** A call, an empty read, an unsupported method, a failing call, the end
    of the input, and a read that never happens. *)
Definition input : list Turn :=
  [Chunk Examples.rawAdd; Chunk ""; Chunk Examples.rawInitialize;
   Chunk Examples.rawDivide; EOF; Chunk Examples.rawAdd].

(** A call, then a signal. *)
Definition interrupted : list Turn :=
  [Chunk Examples.rawAdd; Cancelled; Chunk Examples.rawAdd].

End ProxyExamples.

(** ** Examples: a [tools/call] whose [params] do not decode

    The request [{..., "method": "tools/call", "params": {"name": 5}}]: its
    envelope decodes, and [params.name], a number, does not decode into the
    string field [Name]. *)
Module Undecodable.

Definition rawNumberName : string :=
  Examples.inbound "5" "tools/call"
    [("params", Examples.object [("name", "5")])].

Definition typeError : error :=
  errorString
    "json: cannot unmarshal number into Go struct field .params.name of type string".

Definition codec : JSONCodec :=
  {| Unmarshal_tools := Unmarshal_tools Examples.exampleCodec;
     Unmarshal_response := Unmarshal_response Examples.exampleCodec;
     Unmarshal_request s :=
       if String.eqb s rawNumberName
       then inr {| JSONRPC := "2.0"; ID := JNumber "5"; Method := "tools/call" |}
       else Unmarshal_request Examples.exampleCodec s;
     Unmarshal_params s :=
       if String.eqb s rawNumberName then inl typeError
       else Unmarshal_params Examples.exampleCodec s;
     Marshal := Marshal Examples.exampleCodec |}.

End Undecodable.

(** * Properties *)

(** ** Strings *)

Lemma append_length (a b : string) :
  String.length (a +:+ b) = String.length a + String.length b.
Proof. induction a as [|c a IH]; simpl; [done | by rewrite IH]. Qed.

Lemma substring_all (s : string) : substring 0 (String.length s) s = s.
Proof. induction s as [|c s IH]; simpl; [done | by rewrite IH]. Qed.

Lemma substring_zero (s : string) : substring 0 0 s = "".
Proof. by destruct s. Qed.

Lemma slice_prefix (a b : string) : slice (a +:+ b) 0 (String.length a) = a.
Proof.
  unfold slice. rewrite Nat.sub_0_r.
  induction a as [|c a IH]; simpl; [apply substring_zero | by rewrite IH].
Qed.

Lemma slice_suffix (a : string) (c : ascii) (b : string) :
  slice (a +:+ String c b) (String.length a + 1)
        (String.length (a +:+ String c b)) = b.
Proof.
  unfold slice. rewrite append_length. simpl.
  replace (String.length a + S (String.length b) - (String.length a + 1))
    with (String.length b) by lia.
  induction a as [|x a IH]; simpl; [apply substring_all | exact IH].
Qed.

Lemma IndexByte_append (a : string) (c : ascii) (b : string) :
  IndexByte a c = None ->
  IndexByte (a +:+ String c b) c = Some (String.length a).
Proof.
  induction a as [|x a IH]; simpl.
  - intros _. by rewrite Ascii.eqb_refl.
  - destruct (Ascii.eqb x c); [done |].
    destruct (IndexByte a c); [done |]. intros _. by rewrite IH.
Qed.

(** A string with a separator is the part before the first one, the
    separator and the rest. *)
Lemma IndexByte_split (s : string) (c : ascii) (i : nat) :
  IndexByte s c = Some i ->
  s = slice s 0 i +:+ String c (slice s (i + 1) (String.length s))
  /\ IndexByte (slice s 0 i) c = None
  /\ i < String.length s.
Proof.
  unfold slice. revert i. induction s as [|x s IH]; simpl; [done |].
  intros i. destruct (Ascii.eqb x c) eqn:Hx.
  - intros [= <-]. apply Ascii.eqb_eq in Hx as ->. simpl.
    rewrite Nat.sub_0_r, substring_all. repeat split; lia || done.
  - destruct (IndexByte s c) as [j|]; [|done]. intros [= <-].
    destruct (IH j eq_refl) as (Hs & Hnone & Hlt).
    rewrite Nat.sub_0_r in *. simpl.
    rewrite Hx, Hnone. repeat split; [| lia].
    exact (f_equal (String x) Hs).
Qed.

(** [strings.SplitN(s, ".", 2)] in its two cases. *)
Lemma SplitN_2_none (s : string) (c : ascii) :
  IndexByte s c = None -> SplitN s c 2 = [s].
Proof.
  intros H. unfold SplitN.
  destruct (String.length s + 1 <? 2)%nat; simpl.
  - destruct (String.length s + 1 - 1) eqn:E; simpl; [done | by rewrite H].
  - by rewrite H.
Qed.

Lemma SplitN_2_some (s : string) (c : ascii) (i : nat) :
  IndexByte s c = Some i ->
  SplitN s c 2 = [slice s 0 i; slice s (i + 1) (String.length s)].
Proof.
  intros H. destruct (IndexByte_split s c i H) as (_ & _ & Hlt).
  unfold SplitN.
  destruct (String.length s + 1 <? 2)%nat eqn:E.
  - apply Nat.ltb_lt in E. lia.
  - simpl. by rewrite H.
Qed.

(** ** [GetMCPForTool] *)

Lemma ContainsByte_false (s : string) (c : ascii) :
  ContainsByte s c = false <-> IndexByte s c = None.
Proof. unfold ContainsByte. by destruct (IndexByte s c). Qed.

(** The two returns of [GetMCPForTool] after a failed split and the two
    after a good one. *)
Lemma GetMCPForTool_no_separator (m : MCPManager) (toolName : string) :
  IndexByte toolName "." = None ->
  GetMCPForTool m toolName =
    (None, "",
     Some (errorString
             ("invalid tool name format, expected 'mcp.tool': " +:+ toolName))).
Proof. intros H. unfold GetMCPForTool. by rewrite (SplitN_2_none _ _ H). Qed.

Lemma GetMCPForTool_separator (m : MCPManager) (toolName : string) (i : nat) :
  IndexByte toolName "." = Some i ->
  GetMCPForTool m toolName =
    match mcpMap m !! slice toolName 0 i with
    | None =>
        (None, "",
         Some (errorString ("MCP not found: " +:+ slice toolName 0 i)))
    | Some mcpInfo =>
        (Some mcpInfo, slice toolName (i + 1) (String.length toolName), None)
    end.
Proof. intros H. unfold GetMCPForTool. by rewrite (SplitN_2_some _ _ _ H). Qed.

(** The name composed of an identifier without separator and a local name
    splits into the two. *)
Lemma GetMCPForTool_compose (m : MCPManager) (id t : string) :
  ContainsByte id "." = false ->
  GetMCPForTool m (id +:+ "." +:+ t) =
    match mcpMap m !! id with
    | None => (None, "", Some (errorString ("MCP not found: " +:+ id)))
    | Some mcpInfo => (Some mcpInfo, t, None)
    end.
Proof.
  intros H%ContainsByte_false.
  change (id +:+ "." +:+ t) with (id +:+ String "." t).
  rewrite (GetMCPForTool_separator m _ _ (IndexByte_append id "." t H)).
  by rewrite slice_prefix, slice_suffix.
Qed.

(** [GetMCPForTool] returns an endpoint whenever it returns no error: the
    nil dereference in [ExecuteTool] cannot happen. *)
Lemma GetMCPForTool_endpoint (m : MCPManager) (toolName localName : string) :
  GetMCPForTool m toolName <> (None, localName, None).
Proof.
  destruct (IndexByte toolName ".") as [i|] eqn:E.
  - rewrite (GetMCPForTool_separator _ _ _ E).
    by destruct (mcpMap m !! slice toolName 0 i).
  - by rewrite (GetMCPForTool_no_separator _ _ E).
Qed.

(** C1. Namespacing round trip: for an identifier [id] without ['.'] that is
    registered in the current snapshot and any local name [t] (which may
    itself contain ['.']), resolving [id + "." + t] succeeds and returns the
    endpoint registered under [id] together with [t]. *)
Theorem namespacing_round_trip
    (m : MCPManager) (id t : string) (endpoint : MCPInfo) :
  ContainsByte id "." = false ->
  mcpMap m !! id = Some endpoint ->
  GetMCPForTool m (id +:+ "." +:+ t) = (Some endpoint, t, None).
Proof. intros Hid Hm. by rewrite GetMCPForTool_compose, Hm. Qed.

(** C4. Resolution fails exactly when the name has no ['.'] or the identifier
    before the first ['.'] is not in the snapshot; a failure returns neither
    an endpoint nor a local name and carries the message of its cause; so
    every name ["ghost.<anything>"] fails when no endpoint is called
    [ghost]. *)
Theorem resolution_failure (m : MCPManager) (toolName : string) :
  let '(endpoint, localName, err) := GetMCPForTool m toolName in
  (is_Some err <->
     ContainsByte toolName "." = false
     \/ exists id rest,
          toolName = id +:+ "." +:+ rest
          /\ ContainsByte id "." = false /\ mcpMap m !! id = None)
  /\ (forall e, err = Some e ->
        endpoint = None /\ localName = ""
        /\ (ContainsByte toolName "." = false
            /\ e = errorString
                     ("invalid tool name format, expected 'mcp.tool': "
                        +:+ toolName)
            \/ exists id rest,
                 toolName = id +:+ "." +:+ rest
                 /\ ContainsByte id "." = false /\ mcpMap m !! id = None
                 /\ e = errorString ("MCP not found: " +:+ id)))
  /\ (mcpMap m !! "ghost" = None ->
      forall rest,
        GetMCPForTool m ("ghost." +:+ rest) =
          (None, "", Some (errorString "MCP not found: ghost"))).
Proof.
  assert (Hghost : mcpMap m !! "ghost" = None ->
            forall rest, GetMCPForTool m ("ghost." +:+ rest) =
              (None, "", Some (errorString "MCP not found: ghost"))).
  { intros Hm rest.
    change ("ghost." +:+ rest) with ("ghost" +:+ "." +:+ rest).
    by rewrite GetMCPForTool_compose, Hm. }
  destruct (IndexByte toolName ".") as [i|] eqn:E.
  - destruct (IndexByte_split _ _ _ E) as (Hsplit & Hnone & _).
    apply ContainsByte_false in Hnone.
    assert (Hdot : ContainsByte toolName "." = true)
      by (unfold ContainsByte; by rewrite E).
    rewrite (GetMCPForTool_separator _ _ _ E).
    destruct (mcpMap m !! slice toolName 0 i) as [mcpInfo|] eqn:Hm.
    + split; [|split; [done | exact Hghost]].
      split; [by intros [? [=]] |].
      intros [Hno | (id & rest & Hname & Hid & Hnone')]; [congruence |].
      exfalso. apply ContainsByte_false in Hid.
      pose proof (IndexByte_append id "." rest Hid) as Hi.
      change (id +:+ String "." rest) with (id +:+ "." +:+ rest) in Hi.
      rewrite <- Hname, E in Hi. injection Hi as ->.
      rewrite Hname in Hm.
      change (id +:+ "." +:+ rest) with (id +:+ String "." rest) in Hm.
      rewrite slice_prefix in Hm. congruence.
    + split; [|split; [| exact Hghost]].
      * split; [| by eexists]. intros _. right.
        exists (slice toolName 0 i), (slice toolName (i + 1) (String.length toolName)).
        done.
      * intros e [= <-]. split; [done |]. split; [done |]. right.
        exists (slice toolName 0 i), (slice toolName (i + 1) (String.length toolName)).
        done.
  - rewrite (GetMCPForTool_no_separator _ _ E).
    apply ContainsByte_false in E.
    split; [|split; [| exact Hghost]].
    + split; [by left | by eexists].
    + intros e [= <-]. split; [done |]. split; [done |]. by left.
Qed.

(** ** [GetAllTools] *)

(** The loop appends the prefixed tools of the entries in the order of the
    visit. *)
Lemma GetAllTools_range_acc (visit : list (string * MCPInfo)) (acc : list ToolInfo) :
  fold_left (fun allTools entry => (allTools ++ prefixedTools entry)%list) visit acc
  = (acc ++ flat_map prefixedTools visit)%list.
Proof.
  revert acc. induction visit as [|entry visit IH]; intros acc; simpl.
  - by rewrite app_nil_r.
  - by rewrite IH, app_assoc.
Qed.

Lemma GetAllTools_range_flat_map (visit : list (string * MCPInfo)) :
  GetAllTools_range visit = flat_map prefixedTools visit.
Proof. apply GetAllTools_range_acc. Qed.

Lemma flat_map_prefixed_length (visit : list (string * MCPInfo)) :
  length (flat_map prefixedTools visit)
  = sum_list (map (fun entry => length (ToolInfos entry.2)) visit).
Proof.
  induction visit as [|entry visit IH]; simpl; [done |].
  rewrite length_app, IH. unfold prefixedTools. by rewrite length_map.
Qed.

(** C2. Aggregation: in whatever order the runtime ranges over the registry,
    [GetAllTools] returns the tools of all endpoints, each with its name
    prefixed by the identifier of its endpoint and ['.']: the result is a
    rearrangement of the concatenation of the prefixed catalogs (nothing
    dropped, nothing duplicated, nothing unprefixed), its members are the
    prefixed tools of the registered endpoints, and its length is the sum of
    the lengths of the catalogs. *)
Theorem aggregation_correct (w : World) (m : MCPManager) :
  range_order m (mapRange w (mcpMap m)) ->
  GetAllTools w m ≡ₚ flat_map prefixedTools (map_to_list (mcpMap m))
  /\ (forall tool,
        tool ∈ GetAllTools w m <->
        exists id endpoint local,
          mcpMap m !! id = Some endpoint
          /\ local ∈ ToolInfos endpoint
          /\ tool = {| Name := id +:+ "." +:+ Name local;
                       Description := Description local;
                       Parameters := Parameters local |})
  /\ length (GetAllTools w m)
     = sum_list (map (fun entry => length (ToolInfos entry.2))
                     (map_to_list (mcpMap m))).
Proof.
  unfold range_order, GetAllTools. intros Hvisit.
  rewrite GetAllTools_range_flat_map.
  assert (Hperm : flat_map prefixedTools (mapRange w (mcpMap m))
                  ≡ₚ flat_map prefixedTools (map_to_list (mcpMap m)))
    by (by apply Permutation_flat_map).
  split; [exact Hperm |]. split.
  - intros tool. rewrite Hperm, list_elem_of_In, in_flat_map. split.
    + intros ([id endpoint] & Hin & Htool).
      apply list_elem_of_In, elem_of_map_to_list in Hin.
      unfold prefixedTools in Htool. simpl in Htool.
      apply in_map_iff in Htool as (local & <- & Hlocal).
      exists id, endpoint, local. by rewrite list_elem_of_In.
    + intros (id & endpoint & local & Hm & Hlocal & ->).
      exists (id, endpoint). split.
      * by apply list_elem_of_In, elem_of_map_to_list.
      * unfold prefixedTools. simpl. apply in_map_iff. exists local.
        by rewrite <- list_elem_of_In.
  - rewrite (Permutation_length Hperm). apply flat_map_prefixed_length.
Qed.

(** ** [ExecuteTool] *)

(** [ExecuteTool] once the provider is resolved and started: the exchange
    between [EvStart] and [EvKill] decides the result. *)
Lemma ExecuteTool_started (w : World) (codec : JSONCodec) (m : MCPManager)
    (toolName localName : string) (mcpInfo : MCPInfo)
    (parameters : option (list (string * JSON))) :
  GetMCPForTool m toolName = (Some mcpInfo, localName, None) ->
  StdinPipe w (Path mcpInfo) = None ->
  StdoutPipe w (Path mcpInfo) = None ->
  Start w (Path mcpInfo) = None ->
  ExecuteTool w codec m toolName parameters =
    let '(evs, r) :=
      ExecuteTool_exchange w codec (Path mcpInfo) localName parameters in
    (match r with inl _ => JNull | inr result => result end,
     match r with inl err => Some err | inr _ => None end,
     (EvStart (Path mcpInfo) :: evs ++ [EvKill (Path mcpInfo)])%list).
Proof.
  intros Hresolve Hin Hout Hstart.
  unfold ExecuteTool, ExecuteTool_session.
  rewrite Hresolve, Hin, Hout, Hstart. simpl.
  by destruct (ExecuteTool_exchange w codec (Path mcpInfo) localName parameters)
    as [evs [err|result]].
Qed.

(** C6. Remote error passthrough: when the response to [tools/call] decodes
    to a value with an error object [{code, message}], [ExecuteTool] returns
    a nil result and an error that carries that message and that code; for
    [{code: -1, message: "cannot divide by zero"}] the error reads
    ["MCP tool error: cannot divide by zero (code -1)"]. *)
Theorem remote_error_passthrough (w : World) (codec : JSONCodec)
    (m : MCPManager) (toolName localName : string) (mcpInfo : MCPInfo)
    (parameters : option (list (string * JSON)))
    (greeting callJSON response : string) (resp : CallResponse)
    (code : Z) (message : string) :
  let path := Path mcpInfo in
  let initLine := initMsg +:+ newline in
  let callLine := callJSON +:+ newline in
  GetMCPForTool m toolName = (Some mcpInfo, localName, None) ->
  StdinPipe w path = None ->
  StdoutPipe w path = None ->
  Start w path = None ->
  Write w path [] initLine = None ->
  Read w path [initLine] = inr greeting ->
  Marshal codec (callRequest localName parameters) = (callJSON, None) ->
  Write w path [initLine] callLine = None ->
  Read w path [initLine; callLine] = inr response ->
  Unmarshal_response codec response = inr resp ->
  RespError resp = Some {| Code := code; Message := message |} ->
  let '(result, err, _) := ExecuteTool w codec m toolName parameters in
  result = JNull
  /\ err = Some (errorString ("MCP tool error: " +:+ message +:+ " (code "
                               +:+ Itoa code +:+ ")"))
  /\ (code = (-1)%Z -> message = "cannot divide by zero" ->
      option_map Error err
      = Some "MCP tool error: cannot divide by zero (code -1)").
Proof.
  intros path initLine callLine Hresolve Hin Hout Hstart Hw1 Hr1 Hmarshal Hw2
    Hr2 Hdecode Herror.
  rewrite (ExecuteTool_started _ _ _ _ _ _ _ Hresolve Hin Hout Hstart).
  unfold ExecuteTool_exchange. fold path initLine.
  rewrite Hw1, Hr1, Hmarshal. fold callLine.
  rewrite Hw2, Hr2. cbn [bind check checked emit ret].
  rewrite Hdecode. cbn [bind check checked emit ret].
  rewrite Herror. cbn [Message Code].
  split; [done |]. split; [done |]. by intros -> ->.
Qed.

(** C10 (as amended). Resolution places no constraint on the local name: for
    an identifier without ['.'] that is in the snapshot, [GetMCPForTool]
    succeeds for every local name, the empty one and those absent from the
    cached catalog included; [ExecuteTool] then starts the provider, passes
    the local name on and returns what the exchange with the provider gives:
    the catalog [ToolInfos] is never consulted. *)
Theorem local_name_unconstrained (w : World) (codec : JSONCodec)
    (m : MCPManager) (id : string) (endpoint : MCPInfo) :
  ContainsByte id "." = false ->
  mcpMap m !! id = Some endpoint ->
  (forall t, GetMCPForTool m (id +:+ "." +:+ t) = (Some endpoint, t, None))
  /\ GetMCPForTool m (id +:+ ".") = (Some endpoint, "", None)
  /\ (StdinPipe w (Path endpoint) = None ->
      StdoutPipe w (Path endpoint) = None ->
      Start w (Path endpoint) = None ->
      forall t parameters,
        ExecuteTool w codec m (id +:+ "." +:+ t) parameters =
          let '(evs, r) :=
            ExecuteTool_exchange w codec (Path endpoint) t parameters in
          (match r with inl _ => JNull | inr result => result end,
           match r with inl err => Some err | inr _ => None end,
           (EvStart (Path endpoint) :: evs ++ [EvKill (Path endpoint)])%list)).
Proof.
  intros Hid Hm.
  assert (Hresolve : forall t,
            GetMCPForTool m (id +:+ "." +:+ t) = (Some endpoint, t, None))
    by (intros t; by rewrite GetMCPForTool_compose, Hm).
  split; [exact Hresolve |]. split; [exact (Hresolve "") |].
  intros Hin Hout Hstart t parameters.
  by apply ExecuteTool_started.
Qed.

(** ** The dispatcher *)

(** C7 (as amended). [tools/call]: once the envelope and [params] are
    decoded, the dispatcher executes the named tool. If the name does not
    resolve, it
    returns the marshalled error frame with the request's id and code
    [-32000] and starts no process; if the invocation succeeds, the frame
    [{jsonrpc, id, result}]; if the invocation fails, the error frame whose
    message carries the message of the failure. *)
Theorem tools_call_handling (w : World) (codec : JSONCodec) (s : MCPServer)
    (rawRequest : string) (request : Request) (params : CallParams) :
  Unmarshal_request codec rawRequest = inr request ->
  Method request = "tools/call" ->
  Unmarshal_params codec rawRequest = inr params ->
  let frame (body : string * any) : any :=
    AMap [("jsonrpc", AString "2.0"); ("id", AJSON (ID request)); body] in
  let failure (err : error) : any :=
    frame ("error",
           AMap [("code", AInt (-32000));
                 ("message", AString ("Failed to execute tool: " +:+ Error err))]) in
  (forall err,
     (GetMCPForTool (mcpManager s) (ParamsName params)).2 = Some err ->
     ProcessRequest w codec s rawRequest = (Marshal codec (failure err), []))
  /\ (forall result evs,
        ExecuteTool w codec (mcpManager s) (ParamsName params) (Arguments params)
        = (result, None, evs) ->
        ProcessRequest w codec s rawRequest
        = (Marshal codec (frame ("result", AJSON result)), evs))
  /\ (forall result err evs,
        ExecuteTool w codec (mcpManager s) (ParamsName params) (Arguments params)
        = (result, Some err, evs) ->
        ProcessRequest w codec s rawRequest = (Marshal codec (failure err), evs)).
Proof.
  intros Hrequest Hmethod Hparams frame failure.
  assert (Hcall : ProcessRequest w codec s rawRequest
                  = handleToolsCall w codec s (ID request) rawRequest).
  { unfold ProcessRequest. by rewrite Hrequest, Hmethod. }
  rewrite Hcall. unfold handleToolsCall. rewrite Hparams.
  split; [| split].
  - intros err Herr. unfold ExecuteTool, ExecuteTool_session.
    destruct (GetMCPForTool (mcpManager s) (ParamsName params))
      as [[endpoint localName] err'].
    simpl in Herr. subst err'. by destruct endpoint.
  - by intros result evs ->.
  - by intros result err evs ->.
Qed.

(** C8. Unsupported methods: for a decoded request whose method is neither
    ["tools/list"] nor ["tools/call"], [ProcessRequest] returns no response
    and the error ["method not implemented: <method>"], and does nothing
    else. *)
Theorem unsupported_method (w : World) (codec : JSONCodec) (s : MCPServer)
    (rawRequest : string) (request : Request) :
  Unmarshal_request codec rawRequest = inr request ->
  Method request <> "tools/list" ->
  Method request <> "tools/call" ->
  ProcessRequest w codec s rawRequest
  = ("", Some (errorString ("method not implemented: " +:+ Method request)), []).
Proof.
  intros Hrequest Hlist Hcall. unfold ProcessRequest. rewrite Hrequest.
  apply String.eqb_neq in Hlist, Hcall. by rewrite Hlist, Hcall.
Qed.

(** ** [LoadMCPs] *)

(** Induction on directory trees. *)
Lemma DirEntry_tree_ind (P : DirEntry -> Prop) :
  (forall name info, P (File name info)) ->
  (forall name readdir dirs, Forall P dirs -> P (Dir name readdir dirs)) ->
  forall d, P d.
Proof.
  intros HFile HDir. fix IH 1. intros [name info | name readdir dirs].
  - apply HFile.
  - apply HDir. induction dirs as [|d dirs IHdirs]; constructor.
    + apply IH.
    + exact IHdirs.
Qed.

(** One call of the callback on an entry that is not a directory. *)
Lemma LoadMCPs_fn_file (w : World) (codec : JSONCodec) (path name : string)
    (info : error + N) (st : gmap string MCPInfo * list Event) :
  let '(st', err) := LoadMCPs_fn w codec path (Some (File name info)) None st in
  st'.1 = fold_left (register w codec) (candidates path (File name info)) st.1
  /\ (err = None <-> readable (File name info) = true).
Proof.
  unfold LoadMCPs_fn, register, endpointOf, discovered. simpl.
  destruct info as [e | mode]; simpl; [done |].
  destruct (N.land mode 73 =? 0)%N; simpl; [done |].
  destruct (getToolInfos w codec path) as [[toolInfos [e|]] evs]; simpl; done.
Qed.

(** The walk registers the candidates in order, up to the first failing call
    of the file system; it returns no error exactly on readable trees. *)
Lemma walkDir_LoadMCPs (w : World) (codec : JSONCodec) (d : DirEntry) :
  forall (path : string) (st : gmap string MCPInfo * list Event),
    let '(st', err) := walkDir (LoadMCPs_fn w codec) path d st in
    (exists visited,
        visited `prefix_of` candidates path d
        /\ st'.1 = fold_left (register w codec) visited st.1)
    /\ (err = None ->
        st'.1 = fold_left (register w codec) (candidates path d) st.1)
    /\ (err = None <-> readable d = true).
Proof.
  induction d as [name info | name readdir dirs IH] using DirEntry_tree_ind;
    intros path st.
  - pose proof (LoadMCPs_fn_file w codec path name info st) as H.
    cbn [walkDir].
    destruct (LoadMCPs_fn w codec path (Some (File name info)) None st)
      as [st1 [err|]]; destruct H as [Hst Herr].
    + split; [| split; [done | exact Herr]].
      exists (candidates path (File name info)). done.
    + split; [| split; [done | exact Herr]].
      exists (candidates path (File name info)). done.
  - cbn [walkDir]. cbn [LoadMCPs_fn IsDir].
    destruct readdir as [err|].
    + cbn [LoadMCPs_fn]. split; [| split; [done | done]].
      exists []. split; [apply prefix_nil | done].
    + cbn [candidates readable].
      revert st. induction IH as [|d1 rest Hd1 _ IHrest]; intros st.
      * split; [| done]. exists []. done.
      * cbn [flat_map forallb].
        specialize (Hd1 (Join path (DirEntryName d1)) st).
        destruct (walkDir (LoadMCPs_fn w codec) (Join path (DirEntryName d1)) d1 st)
          as [st1 [err|]]; destruct Hd1 as ((visited & Hprefix & Hst) & Hfull & Herr).
        -- split; [| split; [done |]].
           ++ exists visited. split; [by apply prefix_app_r | done].
           ++ split; [done |]. intros [Hd _]%andb_prop. by apply Herr in Hd.
        -- specialize (IHrest st1). rewrite (Hfull eq_refl) in IHrest.
           destruct ((fix walkEntries (dirs : list DirEntry)
                        (st0 : gmap string MCPInfo * list Event) {struct dirs}
                        : gmap string MCPInfo * list Event * option error :=
                        match dirs with
                        | [] => (st0, None)
                        | d2 :: rest0 =>
                            let (st', o) :=
                              walkDir (LoadMCPs_fn w codec)
                                      (Join path (DirEntryName d2)) d2 st0 in
                            match o with
                            | Some err => (st', Some err)
                            | None => walkEntries rest0 st'
                            end
                        end) rest st1) as [st2 err2].
           destruct IHrest as ((visited' & Hprefix' & Hst') & Hfull' & Herr').
           split; [| split].
           ++ exists (candidates (Join path (DirEntryName d1)) d1 ++ visited')%list.
              split; [by apply prefix_app | by rewrite fold_left_app].
           ++ intros Hnone. by rewrite fold_left_app, Hfull'.
           ++ rewrite Herr'. destruct Herr as [Hr _]. rewrite (Hr eq_refl). done.
Qed.

(** Lookups in the registry built from a list of candidates: the last
    candidate with a given identifier wins. *)
Lemma register_fold_snoc (w : World) (codec : JSONCodec)
    (paths : list string) (path : string) (mcpMap : gmap string MCPInfo) :
  fold_left (register w codec) (paths ++ [path]) mcpMap
  = register w codec (fold_left (register w codec) paths mcpMap) path.
Proof. by rewrite fold_left_app. Qed.

Lemma register_fold_lookup (w : World) (codec : JSONCodec)
    (paths : list string) (name : string) (endpoint : MCPInfo) :
  fold_left (register w codec) paths ∅ !! name = Some endpoint ->
  exists path,
    path ∈ paths /\ providerName path = name /\ endpoint = endpointOf w codec path.
Proof.
  induction paths as [|path paths IH] using rev_ind.
  - simpl. by rewrite lookup_empty.
  - rewrite register_fold_snoc. unfold register at 1.
    destruct (decide (providerName path = name)) as [<- | Hne].
    + rewrite lookup_insert_eq. intros [= <-]. exists path.
      split; [set_solver | done].
    + rewrite lookup_insert_ne by done. intros (p & Hp & Hname & He)%IH.
      exists p. split; [set_solver | done].
Qed.

Lemma register_fold_last (w : World) (codec : JSONCodec)
    (before after : list string) (path : string) (mcpMap : gmap string MCPInfo) :
  (forall q, q ∈ after -> providerName q <> providerName path) ->
  fold_left (register w codec) (before ++ path :: after) mcpMap
    !! providerName path = Some (endpointOf w codec path).
Proof.
  induction after as [|q after IH] using rev_ind; intros Hafter.
  - rewrite register_fold_snoc. unfold register at 1. by rewrite lookup_insert_eq.
  - replace (before ++ path :: after ++ [q])%list
      with ((before ++ path :: after) ++ [q])%list
      by (by rewrite <- app_assoc).
    rewrite register_fold_snoc. unfold register at 1.
    rewrite lookup_insert_ne by (apply Hafter; set_solver).
    apply IH. intros q' Hq'. apply Hafter. set_solver.
Qed.

Lemma register_fold_registered (w : World) (codec : JSONCodec)
    (paths : list string) (path : string) (mcpMap : gmap string MCPInfo) :
  path ∈ paths ->
  is_Some (fold_left (register w codec) paths mcpMap !! providerName path).
Proof.
  induction paths as [|q paths IH] using rev_ind; [set_solver |].
  rewrite register_fold_snoc. unfold register at 1.
  intros [Hin | ->%list_elem_of_singleton]%elem_of_app.
  - destruct (decide (providerName q = providerName path)) as [-> | Hne].
    + rewrite lookup_insert_eq. by eexists.
    + rewrite lookup_insert_ne by done. by apply IH.
  - rewrite lookup_insert_eq. by eexists.
Qed.

(** [LoadMCPs] on a directory that [Lstat] finds. *)
Lemma LoadMCPs_registry (w : World) (codec : JSONCodec) (m : MCPManager)
    (root : DirEntry) :
  Lstat w (mcpDirectory m) = inr root ->
  let '(m', err, _) := LoadMCPs w codec m in
  (exists visited,
      visited `prefix_of` candidates (mcpDirectory m) root
      /\ mcpMap m' = fold_left (register w codec) visited ∅)
  /\ (err = None ->
      mcpMap m' = fold_left (register w codec) (candidates (mcpDirectory m) root) ∅)
  /\ (err = None <-> readable root = true).
Proof.
  intros Hroot. unfold LoadMCPs, WalkDir. rewrite Hroot.
  pose proof (walkDir_LoadMCPs w codec root (mcpDirectory m) (∅, [])) as H.
  destruct (walkDir (LoadMCPs_fn w codec) (mcpDirectory m) root (∅, []))
    as [[mcpMap' evs] err].
  exact H.
Qed.



(** C5 (as amended). Discovery failures are isolated: when the walk meets no
    error of the file system, [LoadMCPs] returns no error whatever the
    handshakes do; every candidate has its identifier registered; a
    candidate whose handshake fails, and whose identifier no later candidate
    takes over, is registered with an empty tool list; and every endpoint of
    the registry holds the catalog its own handshake returned (the empty one
    if it failed), whatever happened to the others. *)
Theorem discovery_failure_isolated (w : World) (codec : JSONCodec)
    (m : MCPManager) (root : DirEntry) :
  Lstat w (mcpDirectory m) = inr root ->
  readable root = true ->
  let '(m', err, _) := LoadMCPs w codec m in
  err = None
  /\ (forall path,
        path ∈ candidates (mcpDirectory m) root ->
        is_Some (mcpMap m' !! providerName path))
  /\ (forall before path after e,
        candidates (mcpDirectory m) root = (before ++ path :: after)%list ->
        (forall q, q ∈ after -> providerName q <> providerName path) ->
        (getToolInfos w codec path).1.2 = Some e ->
        mcpMap m' !! providerName path
        = Some {| MCPName := providerName path; Path := path; ToolInfos := [] |})
  /\ (forall name endpoint,
        mcpMap m' !! name = Some endpoint ->
        Path endpoint ∈ candidates (mcpDirectory m) root
        /\ ToolInfos endpoint
           = match getToolInfos w codec (Path endpoint) with
             | (toolInfos, None, _) => toolInfos
             | (_, Some _, _) => []
             end).
Proof.
  intros Hroot Hreadable.
  pose proof (LoadMCPs_registry w codec m root Hroot) as H.
  destruct (LoadMCPs w codec m) as [[m' err] evs].
  destruct H as (_ & Hfull & Herr).
  apply Herr in Hreadable as ->. specialize (Hfull eq_refl).
  split; [done |]. rewrite Hfull. split; [| split].
  - intros path Hin. by apply register_fold_registered.
  - intros before path after e -> Hafter Hfail.
    rewrite register_fold_last by done.
    unfold endpointOf, discovered.
    destruct (getToolInfos w codec path) as [[toolInfos [e'|]] evs']; done.
  - intros name endpoint (path & Hin & Hname & ->)%register_fold_lookup.
    done.
Qed.

(** ** The mutex *)

Import Locking.

Lemma readLocks_insert (rs : list reader) (i : nat) (r r' : reader) :
  rs !! i = Some r ->
  readLocks (<[i := r']> rs) + locked r = readLocks rs + locked r'.
Proof.
  revert i. induction rs as [|x rs IH]; intros i; [done |].
  destruct i as [|i]; simpl.
  - intros [= ->]. destruct r, r'; simpl; lia.
  - intros H. specialize (IH i H). destruct x; simpl; lia.
Qed.

Lemma readLocks_none (pre : gmap string MCPInfo) (plan : list (string * MCPInfo))
    (sh sh' : gmap string MCPInfo) (rs : list reader) :
  readLocks rs = 0 ->
  Forall (reader_ok pre plan sh) rs -> Forall (reader_ok pre plan sh') rs.
Proof.
  induction rs as [|r rs IH]; [done |].
  intros Hzero [Hr Hrs]%Forall_cons. destruct r; simpl in Hzero; try done.
  - constructor; [done | by apply IH].
  - constructor; [done | by apply IH].
Qed.

(** A loop that has visited every key of the map once has visited the
    entries of the map. *)
Lemma visit_complete (sh : gmap string MCPInfo) (visited : list (string * MCPInfo)) :
  NoDup visited.*1 ->
  (forall mcpName mcpInfo,
      (mcpName, mcpInfo) ∈ visited -> sh !! mcpName = Some mcpInfo) ->
  forallb (fun mcpName => bool_decide (mcpName ∈ visited.*1))
          (map_to_list sh).*1 = true ->
  visited ≡ₚ map_to_list sh.
Proof.
  intros Hnodup Hin Hall. apply NoDup_Permutation.
  - by eapply NoDup_fmap_1.
  - apply NoDup_map_to_list.
  - intros [k v]. rewrite elem_of_map_to_list. split; [apply Hin |].
    intros Hk. rewrite forallb_forall in Hall.
    assert (Hkeys : k ∈ visited.*1).
    { eapply bool_decide_eq_true_1, Hall, list_elem_of_In, list_elem_of_fmap.
      exists (k, v). split; [done | by apply elem_of_map_to_list]. }
    apply list_elem_of_fmap in Hkeys as ([k' v'] & -> & Hkv). simpl in *.
    pose proof (Hin _ _ Hkv) as Hv'. by simplify_eq.
Qed.

Lemma post_snoc (assigned : list (string * MCPInfo)) (name : string)
    (mcpInfo : MCPInfo) :
  post (assigned ++ [(name, mcpInfo)]) = <[name := mcpInfo]> (post assigned).
Proof. unfold post. by rewrite fold_left_app. Qed.

Lemma inv_init (pre : gmap string MCPInfo) (plan : list (string * MCPInfo))
    (n : nat) :
  inv pre plan (init pre n).
Proof.
  unfold inv, init. simpl. repeat split; try done.
  - induction n; simpl; [done | exact IHn].
  - apply Forall_replicate. exact I.
Qed.

(** While a reader is in its loop the shared map is a complete registry:
    the one before the reload or the one after. *)
Lemma reader_sees_snapshot (pre : gmap string MCPInfo)
    (plan : list (string * MCPInfo)) (s : state) (i : nat)
    (visited : list (string * MCPInfo)) :
  inv pre plan s ->
  reads s !! i = Some (RLocked visited) ->
  shared s = pre \/ shared s = post plan.
Proof.
  intros (Hw & Hcount & Hexcl & Hshared & _) Hi.
  pose proof (readLocks_insert (reads s) i _ RStart Hi) as Hlocks.
  simpl in Hlocks.
  destruct (writerHeld (mutex s)) eqn:Hheld.
  - specialize (Hexcl eq_refl). lia.
  - destruct (reload s); try done; [by left | by right].
Qed.

Lemma inv_step (pre : gmap string MCPInfo) (plan : list (string * MCPInfo))
    (a : action) (s s' : state) :
  inv pre plan s -> exec plan a s = Some s' -> inv pre plan s'.
Proof.
  intros Hinv Hexec.
  pose proof Hinv as (Hw & Hcount & Hexcl & Hshared & Hreaders).
  destruct a as [| | | | i | i mcpName | i]; simpl in Hexec.
  - (* Lock *)
    destruct (reload s) eqn:Hr; try done.
    destruct (negb (writerHeld (mutex s)) && (readerCount (mutex s) =? 0)%nat)
      eqn:Hfree; [| done].
    injection Hexec as <-. apply andb_prop in Hfree as [_ Hzero%Nat.eqb_eq].
    unfold inv. simpl. done.
  - (* Clear *)
    destruct (reload s) eqn:Hr; try done. injection Hexec as <-.
    unfold inv. simpl. repeat split; try done.
    + by exists [].
    + apply (readLocks_none pre plan (shared s)); [| done].
      rewrite <- Hcount. by apply Hexcl.
  - (* Assign *)
    destruct (reload s) as [| | [|[name mcpInfo] rest] |] eqn:Hr; try done.
    injection Hexec as <-. destruct Hshared as (assigned & Hplan & Hsh).
    unfold inv. simpl. repeat split; try done.
    + exists (assigned ++ [(name, mcpInfo)])%list.
      split; [by rewrite <- app_assoc | by rewrite post_snoc, Hsh].
    + apply (readLocks_none pre plan (shared s)); [| done].
      rewrite <- Hcount. by apply Hexcl.
  - (* Unlock *)
    destruct (reload s) as [| | [|entry rest] |] eqn:Hr; try done.
    injection Hexec as <-. destruct Hshared as (assigned & Hplan & Hsh).
    rewrite app_nil_r in Hplan. subst assigned.
    unfold inv. simpl. done.
  - (* RLock *)
    destruct (reads s !! i) as [[| |]|] eqn:Hi; try done.
    destruct (writerHeld (mutex s)) eqn:Hheld; [done |].
    injection Hexec as <-.
    pose proof (readLocks_insert (reads s) i _ (RLocked []) Hi) as Hlocks.
    simpl in Hlocks.
    unfold inv. simpl. rewrite ?Hheld. repeat split; try done.
    + lia.
    + apply Forall_insert; [done |]. split; [constructor | set_solver].
  - (* Visit *)
    destruct (reads s !! i) as [[| visited |]|] eqn:Hi; try done.
    destruct (bool_decide (mcpName ∈ visited.*1)) eqn:Hnew; [done |].
    apply bool_decide_eq_false in Hnew.
    destruct (shared s !! mcpName) as [mcpInfo|] eqn:Hlookup; [| done].
    injection Hexec as <-.
    pose proof (readLocks_insert (reads s) i _
                  (RLocked (visited ++ [(mcpName, mcpInfo)])) Hi) as Hlocks.
    simpl in Hlocks.
    destruct (Forall_lookup_1 _ _ _ _ Hreaders Hi) as [Hnodup Hin].
    unfold inv. simpl. repeat split; try done.
    + lia.
    + apply Forall_insert; [done |]. split.
      * rewrite fmap_app. apply NoDup_app. split; [done |].
        split; [| apply NoDup_singleton].
        intros k Hk Hk'. simpl in Hk'.
        apply list_elem_of_singleton in Hk' as ->. done.
      * intros k v [Hkv | Hkv%list_elem_of_singleton]%elem_of_app;
          [by apply Hin | by simplify_eq].
  - (* RUnlock *)
    destruct (reads s !! i) as [[| visited |]|] eqn:Hi; try done.
    destruct (forallb (fun mcpName => bool_decide (mcpName ∈ visited.*1))
                      (map_to_list (shared s)).*1) eqn:Hall; [| done].
    injection Hexec as <-.
    pose proof (readLocks_insert (reads s) i _
                  (RReturned (GetAllTools_range visited)) Hi) as Hlocks.
    simpl in Hlocks.
    destruct (Forall_lookup_1 _ _ _ _ Hreaders Hi) as [Hnodup Hin].
    pose proof (reader_sees_snapshot pre plan s i visited Hinv Hi) as Hsnapshot.
    unfold inv. simpl. repeat split; try done.
    + lia.
    + intros Hheld. specialize (Hexcl Hheld). lia.
    + apply Forall_insert; [done |].
      exists (shared s), visited. split; [done |].
      split; [by apply visit_complete | done].
Qed.

Lemma inv_run (pre : gmap string MCPInfo) (plan : list (string * MCPInfo))
    (schedule : list action) :
  forall s s', inv pre plan s -> run plan schedule s = Some s' -> inv pre plan s'.
Proof.
  induction schedule as [|a schedule IH]; intros s s' Hinv; simpl.
  - by intros [= <-].
  - destruct (exec plan a s) as [s1|] eqn:Hexec; [| done].
    apply IH. by eapply inv_step.
Qed.

Lemma inv_reachable (pre : gmap string MCPInfo) (plan : list (string * MCPInfo))
    (s s' : state) :
  inv pre plan s -> rtc (step plan) s s' -> inv pre plan s'.
Proof.
  intros Hinv Hsteps. induction Hsteps as [| s s1 s' [a Hexec] _ IH]; [done |].
  apply IH. by eapply inv_step.
Qed.

(** C9. Concurrent reads and a reload: in every interleaving of the steps of
    [LoadMCPs] with those of any number of [GetAllTools] calls, every call
    that returns has ranged over a complete registry, the one before the
    reload or the one after it, and returns the aggregation of that one;
    and while a call is in its loop the shared map is one of the two. *)
Theorem read_reload_safety (pre : gmap string MCPInfo)
    (plan : list (string * MCPInfo)) (n : nat) (s : state) :
  rtc (step plan) (init pre n) s ->
  (forall i allTools,
      reads s !! i = Some (RReturned allTools) ->
      exists snapshot visit,
        (snapshot = pre \/ snapshot = post plan)
        /\ visit ≡ₚ map_to_list snapshot
        /\ allTools = GetAllTools_range visit)
  /\ (forall i visited,
        reads s !! i = Some (RLocked visited) ->
        (shared s = pre \/ shared s = post plan)
        /\ forall mcpName mcpInfo,
             (mcpName, mcpInfo) ∈ visited -> shared s !! mcpName = Some mcpInfo).
Proof.
  intros Hreach.
  pose proof (inv_reachable pre plan _ _ (inv_init pre plan n) Hreach) as Hinv.
  pose proof Hinv as (_ & _ & _ & _ & Hreaders). split.
  - intros i allTools Hi. exact (Forall_lookup_1 _ _ _ _ Hreaders Hi).
  - intros i visited Hi. split; [by eapply reader_sees_snapshot |].
    by destruct (Forall_lookup_1 _ _ _ _ Hreaders Hi).
Qed.

(** The mutex excludes: [Lock] waits for the readers, [RLock] for the
    writer. *)
Lemma Lock_waits_for_readers (plan : list (string * MCPInfo)) (s : state) :
  readerCount (mutex s) <> 0 -> exec plan Lock s = None.
Proof.
  intros Hreaders. simpl. destruct (reload s); try done.
  destruct (readerCount (mutex s)); [done |]. by rewrite andb_false_r.
Qed.

Lemma RLock_waits_for_writer (plan : list (string * MCPInfo)) (s : state)
    (i : nat) :
  writerHeld (mutex s) = true -> exec plan (RLock i) s = None.
Proof.
  intros Hheld. simpl. rewrite Hheld. by destruct (reads s !! i) as [[| |]|].
Qed.

Lemma run_reachable (plan : list (string * MCPInfo)) (schedule : list action) :
  forall s s', run plan schedule s = Some s' -> rtc (step plan) s s'.
Proof.
  induction schedule as [|a schedule IH]; intros s s'; simpl.
  - intros [= <-]. constructor.
  - destruct (exec plan a s) as [s1|] eqn:Hexec; [| done].
    intros Hrun. eapply rtc_l; [by exists a | by apply IH].
Qed.

(** ** The examples *)

Import Examples.

(** Scenario A: after the reload [GetAllTools] lists the four tools. *)
Lemma scenario_A :
  (LoadMCPs scenario exampleCodec (NewMCPManager "/mcps")).1.2 = None
  /\ map Name (GetAllTools scenario registry)
     = ["calculator-mcp.add"; "calculator-mcp.multiply";
        "calculator-mcp.divide"; "hello-mcp.hello"].
Proof. by vm_compute. Qed.

(** Scenario B: [calculator-mcp.add] of 10 and 20. *)
Lemma scenario_B :
  (ExecuteTool scenario exampleCodec registry "calculator-mcp.add"
               (arguments "10" "20")).1 = (thirty, None).
Proof. by vm_compute. Qed.

(** Witness of C1. *)
Lemma namespacing_round_trip_witness :
  ContainsByte "calculator-mcp" "." = false
  /\ mcpMap registry !! "calculator-mcp" = Some calculatorEndpoint
  /\ GetMCPForTool registry ("calculator-mcp" +:+ "." +:+ "add.v2")
     = (Some calculatorEndpoint, "add.v2", None).
Proof.
  split; [reflexivity |]. split; [by vm_compute |].
  apply namespacing_round_trip; by vm_compute.
Defined.

(** Witness of C2. *)
Lemma aggregation_correct_witness :
  range_order registry (mapRange scenario (mcpMap registry))
  /\ length (GetAllTools scenario registry) = 4.
Proof.
  assert (H : range_order registry (mapRange scenario (mcpMap registry)))
    by (unfold range_order; reflexivity).
  split; [exact H |].
  destruct (aggregation_correct scenario registry H) as (_ & _ & ->).
  by vm_compute.
Defined.

(** Witness of C4. *)
Lemma resolution_failure_witness :
  mcpMap registry !! "ghost" = None
  /\ GetMCPForTool registry ("ghost." +:+ "doSomething")
     = (None, "", Some (errorString "MCP not found: ghost")).
Proof.
  assert (H : mcpMap registry !! "ghost" = None) by (by vm_compute).
  split; [exact H |].
  pose proof (resolution_failure registry "calculator-mcp") as Hfail.
  destruct (GetMCPForTool registry "calculator-mcp") as [[endpoint localName] err].
  destruct Hfail as (_ & _ & Hghost). by apply Hghost.
Defined.



(** Counterexample to C5 as stated: of two candidates with one identifier
    the first fails its handshake, and the reload keeps the second under
    that identifier: the failing candidate is not an endpoint with an empty
    tool list. *)
Lemma failing_twin_replaced :
  candidates "/mcps" twins = ["/mcps/calculator-mcp"; "/mcps/calculator-mcp.sh"]
  /\ (getToolInfos (world twins ["/mcps/calculator-mcp"]) exampleCodec
                   "/mcps/calculator-mcp").1
     = ([], Some (Errorf_w "failed to start MCP: "
                    (errorString
                       "fork/exec /mcps/calculator-mcp: exec format error")))
  /\ (LoadMCPs (world twins ["/mcps/calculator-mcp"]) exampleCodec
               (NewMCPManager "/mcps")).1.2 = None
  /\ map_to_list (mcpMap (loaded (world twins ["/mcps/calculator-mcp"])))
     = [("calculator-mcp",
         {| MCPName := "calculator-mcp";
            Path := "/mcps/calculator-mcp.sh";
            ToolInfos := calculatorTools |})]
  /\ ~ (forall (w : World) (codec : JSONCodec) (m : MCPManager)
               (root : DirEntry) (path : string) (e : error),
          Lstat w (mcpDirectory m) = inr root ->
          path ∈ candidates (mcpDirectory m) root ->
          (getToolInfos w codec path).1.2 = Some e ->
          (LoadMCPs w codec m).1.2 = None
          /\ mcpMap (LoadMCPs w codec m).1.1 !! providerName path
             = Some {| MCPName := providerName path; Path := path;
                       ToolInfos := [] |}).
Proof.
  do 4 (split; [by vm_compute |]).
  intros Hclaim.
  destruct (Hclaim (world twins ["/mcps/calculator-mcp"]) exampleCodec
              (NewMCPManager "/mcps") twins "/mcps/calculator-mcp"
              (Errorf_w "failed to start MCP: "
                 (errorString "fork/exec /mcps/calculator-mcp: exec format error"))
              eq_refl)
    as [_ Hretained].
  - apply list_elem_of_here.
  - by vm_compute.
  - by vm_compute in Hretained.
Qed.

(** Witness of C5 as amended: [hello-mcp] does not start. *)
Lemma discovery_failure_isolated_witness :
  Lstat helloBroken "/mcps" = inr twoProviders
  /\ readable twoProviders = true
  /\ mcpMap (loaded helloBroken) !! "hello-mcp"
     = Some {| MCPName := "hello-mcp"; Path := "/mcps/hello-mcp"; ToolInfos := [] |}.
Proof.
  split; [reflexivity |]. split; [reflexivity |].
  pose proof (discovery_failure_isolated helloBroken exampleCodec
                (NewMCPManager "/mcps") twoProviders eq_refl eq_refl) as H.
  unfold loaded.
  destruct (LoadMCPs helloBroken exampleCodec (NewMCPManager "/mcps"))
    as [[m' err] evs].
  destruct H as (_ & _ & Hfailed & _).
  apply (Hfailed ["/mcps/calculator-mcp"] "/mcps/hello-mcp" []
           (Errorf_w "failed to start MCP: "
              (errorString "fork/exec /mcps/hello-mcp: exec format error"))).
  - reflexivity.
  - intros q Hq. by apply elem_of_nil in Hq.
  - by vm_compute.
Defined.

(** Witness of C6, and scenario C: [calculator-mcp.divide] of 5 by 0. *)
Lemma remote_error_passthrough_witness :
  GetMCPForTool registry "calculator-mcp.divide"
    = (Some calculatorEndpoint, "divide", None)
  /\ Unmarshal_response exampleCodec errorReply
     = inr {| Result := JNull; RespError := Some divideByZero |}
  /\ (ExecuteTool scenario exampleCodec registry "calculator-mcp.divide"
                  (arguments "5" "0")).1
     = (JNull,
        Some (errorString "MCP tool error: cannot divide by zero (code -1)")).
Proof.
  split; [by vm_compute |]. split; [by vm_compute |].
  pose proof (remote_error_passthrough scenario exampleCodec registry
                "calculator-mcp.divide" "divide" calculatorEndpoint
                (arguments "5" "0") initResponse
                (render (callRequest "divide" (arguments "5" "0")))
                errorReply
                {| Result := JNull; RespError := Some divideByZero |}
                (-1) "cannot divide by zero") as H.
  cbv zeta in H.
  assert (Hresolve : GetMCPForTool registry "calculator-mcp.divide"
                     = (Some calculatorEndpoint, "divide", None))
    by (by vm_compute).
  specialize (H Hresolve eq_refl eq_refl eq_refl eq_refl).
  assert (Hgreeting :
            Read scenario (Path calculatorEndpoint) [initMsg +:+ newline]
            = inr initResponse) by (by vm_compute).
  specialize (H Hgreeting eq_refl eq_refl).
  assert (Hreply :
            Read scenario (Path calculatorEndpoint)
              [initMsg +:+ newline;
               render (callRequest "divide" (arguments "5" "0")) +:+ newline]
            = inr errorReply) by (by vm_compute).
  specialize (H Hreply).
  assert (Hdecode : Unmarshal_response exampleCodec errorReply
                    = inr {| Result := JNull; RespError := Some divideByZero |})
    by (by vm_compute).
  specialize (H Hdecode eq_refl).
  destruct (ExecuteTool scenario exampleCodec registry "calculator-mcp.divide"
              (arguments "5" "0")) as [[result err] evs].
  destruct H as (-> & -> & _). reflexivity.
Defined.

(** Counterexample to C7 as stated: a [tools/call] whose [params.name] is a
    number. The envelope decodes, the second decoding in [handleToolsCall]
    fails, and the dispatcher returns a Go error: it resolves no name and
    returns no frame. *)
Lemma undecodable_params_no_frame :
  Unmarshal_request Undecodable.codec Undecodable.rawNumberName
    = inr {| JSONRPC := "2.0"; ID := JNumber "5"; Method := "tools/call" |}
  /\ Unmarshal_params Undecodable.codec Undecodable.rawNumberName
     = inl Undecodable.typeError
  /\ ProcessRequest scenario Undecodable.codec {| mcpManager := registry |}
                    Undecodable.rawNumberName
     = ("", Some (Errorf_w "failed to parse request: " Undecodable.typeError), [])
  /\ ~ (forall (w : World) (codec : JSONCodec) (s : MCPServer)
               (rawRequest : string) (request : Request),
          Unmarshal_request codec rawRequest = inr request ->
          Method request = "tools/call" ->
          exists body evs,
            ProcessRequest w codec s rawRequest
            = (Marshal codec
                 (AMap [("jsonrpc", AString "2.0");
                        ("id", AJSON (ID request)); body]), evs)).
Proof.
  assert (Hrequest : Unmarshal_request Undecodable.codec Undecodable.rawNumberName
            = inr {| JSONRPC := "2.0"; ID := JNumber "5"; Method := "tools/call" |})
    by (by vm_compute).
  assert (Hprocess :
            ProcessRequest scenario Undecodable.codec {| mcpManager := registry |}
                           Undecodable.rawNumberName
            = ("", Some (Errorf_w "failed to parse request: " Undecodable.typeError),
               [])) by (by vm_compute).
  split; [exact Hrequest |]. split; [by vm_compute |]. split; [exact Hprocess |].
  intros Hclaim.
  destruct (Hclaim scenario Undecodable.codec {| mcpManager := registry |}
              Undecodable.rawNumberName _ Hrequest eq_refl)
    as (body & evs & Hframe).
  rewrite Hprocess in Hframe. simpl in Hframe. by injection Hframe.
Qed.

(** Witness of C7 as amended: a name that does not resolve. *)
Lemma tools_call_handling_witness :
  Unmarshal_request exampleCodec rawGhost
    = inr {| JSONRPC := "2.0"; ID := JNumber "9"; Method := "tools/call" |}
  /\ Unmarshal_params exampleCodec rawGhost
     = inr {| ParamsName := "ghost.doSomething"; Arguments := arguments "1" "2" |}
  /\ ProcessRequest scenario exampleCodec {| mcpManager := registry |} rawGhost
     = (render
          (AMap [("jsonrpc", AString "2.0"); ("id", AJSON (JNumber "9"));
                 ("error",
                  AMap [("code", AInt (-32000));
                        ("message",
                         AString "Failed to execute tool: MCP not found: ghost")])]),
        None, []).
Proof.
  assert (Hrequest : Unmarshal_request exampleCodec rawGhost
            = inr {| JSONRPC := "2.0"; ID := JNumber "9"; Method := "tools/call" |})
    by (by vm_compute).
  assert (Hparams : Unmarshal_params exampleCodec rawGhost
            = inr {| ParamsName := "ghost.doSomething";
                     Arguments := arguments "1" "2" |})
    by (by vm_compute).
  split; [exact Hrequest |]. split; [exact Hparams |].
  destruct (tools_call_handling scenario exampleCodec {| mcpManager := registry |}
              rawGhost _ _ Hrequest eq_refl Hparams) as (Hunresolved & _ & _).
  rewrite (Hunresolved (errorString "MCP not found: ghost")); [reflexivity |].
  by vm_compute.
Defined.

(** Witness of C8. *)
Lemma unsupported_method_witness :
  Unmarshal_request exampleCodec rawInitialize
    = inr {| JSONRPC := "2.0"; ID := JNumber "1"; Method := "initialize" |}
  /\ ProcessRequest scenario exampleCodec {| mcpManager := registry |} rawInitialize
     = ("", Some (errorString "method not implemented: initialize"), []).
Proof.
  assert (Hrequest : Unmarshal_request exampleCodec rawInitialize
            = inr {| JSONRPC := "2.0"; ID := JNumber "1"; Method := "initialize" |})
    by (by vm_compute).
  split; [exact Hrequest |].
  by apply (unsupported_method scenario exampleCodec {| mcpManager := registry |}
              rawInitialize _ Hrequest).
Defined.

(** Witness of C9: a read before the reload and a read after it. *)
Lemma read_reload_safety_witness :
  exists s,
    run reloadPlan schedule (init before 2) = Some s
    /\ reads s !! 0 = Some (RReturned [])
    /\ exists snapshot visit,
         (snapshot = before \/ snapshot = post reloadPlan)
         /\ visit ≡ₚ map_to_list snapshot
         /\ GetAllTools_range
              [("hello-mcp",
                {| MCPName := "hello-mcp"; Path := "/mcps/hello-mcp";
                   ToolInfos := helloTools |});
               ("calculator-mcp", calculatorEndpoint)]
            = GetAllTools_range visit.
Proof.
  destruct (run reloadPlan schedule (init before 2)) as [s|] eqn:Hrun;
    [| by vm_compute in Hrun].
  exists s. split; [done |].
  assert (Hreads : reads s
            = [RReturned [];
               RReturned
                 (GetAllTools_range
                    [("hello-mcp",
                      {| MCPName := "hello-mcp"; Path := "/mcps/hello-mcp";
                         ToolInfos := helloTools |});
                     ("calculator-mcp", calculatorEndpoint)])]).
  { vm_compute in Hrun. by injection Hrun as <-. }
  split; [by rewrite Hreads |].
  destruct (read_reload_safety before reloadPlan 2 s
              (run_reachable _ _ _ _ Hrun)) as [Hreturned _].
  apply (Hreturned 1). by rewrite Hreads.
Defined.

(** Counterexample to C10 as stated: the file [calc.v2.bin] is registered
    under the identifier ["calc.v2"], which is in the snapshot, and no name
    ["calc.v2.<local>"] resolves to it. *)
Lemma dotted_identifier_unresolved :
  providerName "/mcps/calc.v2.bin" = "calc.v2"
  /\ mcpMap (loaded (world dotted [])) !! "calc.v2"
     = Some {| MCPName := "calc.v2"; Path := "/mcps/calc.v2.bin"; ToolInfos := [] |}
  /\ GetMCPForTool (loaded (world dotted [])) ("calc.v2" +:+ "." +:+ "add")
     = (None, "", Some (errorString "MCP not found: calc"))
  /\ GetMCPForTool (loaded (world dotted [])) ("calc.v2" +:+ ".")
     = (None, "", Some (errorString "MCP not found: calc"))
  /\ ~ (forall (m : MCPManager) (id t : string) (endpoint : MCPInfo),
          mcpMap m !! id = Some endpoint ->
          GetMCPForTool m (id +:+ "." +:+ t) = (Some endpoint, t, None)).
Proof.
  do 4 (split; [by vm_compute |]).
  intros Hclaim.
  specialize (Hclaim (loaded (world dotted [])) "calc.v2" "add"
                {| MCPName := "calc.v2"; Path := "/mcps/calc.v2.bin";
                   ToolInfos := [] |}).
  assert (Hm : mcpMap (loaded (world dotted [])) !! "calc.v2"
               = Some {| MCPName := "calc.v2"; Path := "/mcps/calc.v2.bin";
                         ToolInfos := [] |}) by (by vm_compute).
  specialize (Hclaim Hm). by vm_compute in Hclaim.
Qed.

(** Witness of C10 as amended: the empty local name and a tool that
    [calculator-mcp] does not list. *)
Lemma local_name_unconstrained_witness :
  ContainsByte "calculator-mcp" "." = false
  /\ mcpMap registry !! "calculator-mcp" = Some calculatorEndpoint
  /\ GetMCPForTool registry "calculator-mcp." = (Some calculatorEndpoint, "", None)
  /\ (ExecuteTool scenario exampleCodec registry "calculator-mcp.power"
                  (arguments "2" "8")).2
     = EvStart "/mcps/calculator-mcp"
         :: (ExecuteTool_exchange scenario exampleCodec "/mcps/calculator-mcp"
                                  "power" (arguments "2" "8")).1
         ++ [EvKill "/mcps/calculator-mcp"].
Proof.
  assert (Hm : mcpMap registry !! "calculator-mcp" = Some calculatorEndpoint)
    by (by vm_compute).
  split; [reflexivity |]. split; [exact Hm |].
  destruct (local_name_unconstrained scenario exampleCodec registry
              "calculator-mcp" calculatorEndpoint eq_refl Hm)
    as (_ & Hempty & Hexecute).
  split; [exact Hempty |].
  specialize (Hexecute eq_refl eq_refl eq_refl "power" (arguments "2" "8")).
  change ("calculator-mcp" +:+ "." +:+ "power") with "calculator-mcp.power"
    in Hexecute.
  rewrite Hexecute. simpl Path.
  by destruct (ExecuteTool_exchange scenario exampleCodec "/mcps/calculator-mcp"
                 "power" (arguments "2" "8")) as [evs r].
Defined.

(** * Further properties of the package *)

(** ** Names: listing and resolving *)

Lemma GetAllTools_range_elem (visit : list (string * MCPInfo)) (tool : ToolInfo) :
  tool ∈ GetAllTools_range visit <->
  exists id endpoint local,
    (id, endpoint) ∈ visit /\ local ∈ ToolInfos endpoint
    /\ tool = prefixed id local.
Proof.
  rewrite GetAllTools_range_flat_map, list_elem_of_In, in_flat_map. split.
  - intros ([id endpoint] & Hin & Htool). unfold prefixedTools in Htool.
    apply in_map_iff in Htool as (local & <- & Hlocal).
    exists id, endpoint, local. by rewrite !list_elem_of_In.
  - intros (id & endpoint & local & Hin & Hlocal & ->).
    exists (id, endpoint). split; [by apply list_elem_of_In |].
    apply in_map_iff. exists local. by rewrite <- list_elem_of_In.
Qed.

(** X1. A name that resolves is the identifier of a registered endpoint, a
    ['.'] and the local name returned; the identifier is the part before
    the first ['.']. [GetMCPForTool] never returns an endpoint together with
    an error. *)
Theorem resolve_decomposes (m : MCPManager) (toolName localName : string)
    (endpoint : MCPInfo) (err : option error) :
  GetMCPForTool m toolName = (Some endpoint, localName, err) ->
  err = None
  /\ exists id,
       toolName = id +:+ "." +:+ localName
       /\ ContainsByte id "." = false
       /\ mcpMap m !! id = Some endpoint.
Proof.
  destruct (IndexByte toolName ".") as [i|] eqn:E.
  - rewrite (GetMCPForTool_separator _ _ _ E).
    destruct (IndexByte_split _ _ _ E) as (Hsplit & Hnone & _).
    destruct (mcpMap m !! slice toolName 0 i) as [mcpInfo|] eqn:Hm; [| done].
    intros [= <- <- <-]. split; [done |].
    exists (slice toolName 0 i). by rewrite ContainsByte_false.
  - by rewrite (GetMCPForTool_no_separator _ _ E).
Qed.

(** Two composed names are equal only if their parts are, when the
    identifiers have no ['.']. *)
Lemma compose_injective (id1 id2 t1 t2 : string) :
  ContainsByte id1 "." = false ->
  ContainsByte id2 "." = false ->
  id1 +:+ "." +:+ t1 = id2 +:+ "." +:+ t2 ->
  id1 = id2 /\ t1 = t2.
Proof.
  intros H1%ContainsByte_false H2%ContainsByte_false Heq.
  change (id1 +:+ String "." t1 = id2 +:+ String "." t2) in Heq.
  pose proof (IndexByte_append id1 "." t1 H1) as Hi1.
  pose proof (IndexByte_append id2 "." t2 H2) as Hi2.
  rewrite Heq, Hi2 in Hi1. injection Hi1 as Hlen.
  pose proof (slice_prefix id1 (String "." t1)) as Hp1.
  pose proof (slice_suffix id1 "." t1) as Hs1.
  rewrite Heq, <- Hlen in Hp1, Hs1.
  rewrite slice_prefix in Hp1. rewrite slice_suffix in Hs1. done.
Qed.

(** X2. Listing then resolving: when no registered identifier contains a
    ['.'], every name [GetAllTools] lists resolves, to an endpoint of the
    registry whose catalog holds the tool and to the name the tool has in
    that catalog. *)
Theorem listed_names_resolve (w : World) (m : MCPManager) (tool : ToolInfo) :
  range_order m (mapRange w (mcpMap m)) ->
  (forall id, is_Some (mcpMap m !! id) -> ContainsByte id "." = false) ->
  tool ∈ GetAllTools w m ->
  exists id endpoint local,
    mcpMap m !! id = Some endpoint
    /\ local ∈ ToolInfos endpoint
    /\ Description tool = Description local
    /\ Parameters tool = Parameters local
    /\ GetMCPForTool m (Name tool) = (Some endpoint, Name local, None).
Proof.
  unfold range_order, GetAllTools. intros Hvisit Hids Htool.
  apply GetAllTools_range_elem in Htool
    as (id & endpoint & local & Hin & Hlocal & ->).
  rewrite Hvisit in Hin. apply elem_of_map_to_list in Hin.
  exists id, endpoint, local. repeat split; try done.
  simpl. rewrite GetMCPForTool_compose by (apply Hids; by eexists).
  by rewrite Hin.
Qed.

(** The names of the prefixed catalogs of entries with distinct dot-free
    identifiers and catalogs without repeated names are distinct. *)
Lemma prefixed_names_NoDup (entries : list (string * MCPInfo)) :
  NoDup entries.*1 ->
  Forall (fun entry => ContainsByte entry.1 "." = false
                       /\ NoDup (map Name (ToolInfos entry.2))) entries ->
  NoDup (map Name (flat_map prefixedTools entries)).
Proof.
  induction entries as [|[id endpoint] entries IH]; simpl; [constructor |].
  intros [Hfresh Hkeys]%NoDup_cons [[Hid Hcatalog] Hrest]%Forall_cons.
  simpl in *. rewrite map_app. apply NoDup_app. split; [| split].
  - unfold prefixedTools. simpl. rewrite map_map. simpl.
    clear -Hcatalog. induction (ToolInfos endpoint) as [|t ts IHts];
      simpl in *; [constructor |].
    apply NoDup_cons in Hcatalog as [Hnew Hts]. constructor; [| by apply IHts].
    intros (t' & Heq & Ht')%list_elem_of_In%in_map_iff. apply Hnew.
    apply list_elem_of_In, in_map_iff. exists t'. split; [| done].
    assert (H : forall a b c : string, a +:+ b = a +:+ c -> b = c).
    { intros a. induction a as [|x a IHa]; simpl; intros b c Hbc; [done |].
      injection Hbc as Hbc. by apply IHa. }
    apply H in Heq. by injection Heq.
  - intros name Hhere%list_elem_of_In%in_map_iff Hthere%list_elem_of_In%in_map_iff.
    destruct Hhere as (t1 & <- & Ht1). destruct Hthere as (t2 & Heq & Ht2).
    unfold prefixedTools in Ht1. simpl in Ht1.
    apply in_map_iff in Ht1 as (l1 & <- & _).
    apply in_flat_map in Ht2 as ([id2 e2] & Hin2 & Ht2).
    unfold prefixedTools in Ht2. simpl in Ht2.
    apply in_map_iff in Ht2 as (l2 & <- & _). simpl in Heq.
    rewrite Forall_forall in Hrest.
    destruct (Hrest (id2, e2) (proj2 (list_elem_of_In _ _) Hin2)) as [Hid2 _].
    simpl in Hid2.
    destruct (compose_injective _ _ _ _ Hid2 Hid Heq) as [-> _].
    apply Hfresh, list_elem_of_fmap. exists (id, e2).
    split; [done | by apply list_elem_of_In].
  - by apply IH.
Qed.

(** X3. No clash of namespaced names: when no registered identifier contains
    a ['.'] and no catalog lists a name twice, [GetAllTools] lists no name
    twice, in whatever order it ranges over the registry. *)
Theorem listed_names_distinct (w : World) (m : MCPManager) :
  range_order m (mapRange w (mcpMap m)) ->
  (forall id endpoint,
      mcpMap m !! id = Some endpoint ->
      ContainsByte id "." = false /\ NoDup (map Name (ToolInfos endpoint))) ->
  NoDup (map Name (GetAllTools w m)).
Proof.
  unfold range_order, GetAllTools. intros Hvisit Hregistry.
  rewrite GetAllTools_range_flat_map.
  assert (Hperm : flat_map prefixedTools (mapRange w (mcpMap m))
                  ≡ₚ flat_map prefixedTools (map_to_list (mcpMap m)))
    by (by apply Permutation_flat_map).
  rewrite Hperm. apply prefixed_names_NoDup.
  - apply NoDup_fst_map_to_list.
  - apply Forall_forall. intros [id endpoint] Hin%elem_of_map_to_list.
    by apply Hregistry.
Qed.

(** ** Identifiers: [filepath.Base], [filepath.Ext] and the name of a
    provider *)

Lemma list_ascii_of_string_append (a b : string) :
  list_ascii_of_string (a +:+ b)
  = (list_ascii_of_string a ++ list_ascii_of_string b)%list.
Proof. induction a as [|c a IH]; simpl; [done | by rewrite IH]. Qed.

Lemma string_of_list_ascii_length (l : list ascii) :
  String.length (string_of_list_ascii l) = length l.
Proof. induction l as [|c l IH]; simpl; [done | by rewrite IH]. Qed.

Lemma ContainsByte_false_Forall (s : string) (c : ascii) :
  ContainsByte s c = false <-> Forall (fun x => x <> c) (list_ascii_of_string s).
Proof.
  rewrite ContainsByte_false. induction s as [|x s IH]; simpl.
  - split; [constructor | done].
  - destruct (Ascii.eqb x c) eqn:Hx.
    + apply Ascii.eqb_eq in Hx as ->. split; [done |].
      by intros [? _]%Forall_cons.
    + apply Ascii.eqb_neq in Hx. rewrite Forall_cons.
      destruct (IndexByte s c); split; try done.
      * intros [_ H]. by apply IH in H.
      * intros _. split; [done | by apply IH].
Qed.

Lemma untilSeparator_app (l1 l2 : list ascii) :
  Forall (fun x => x <> "/"%char) l1 ->
  untilSeparator (l1 ++ "/"%char :: l2) = l1.
Proof.
  induction l1 as [|x l1 IH]; simpl; [done |].
  intros [Hx Hl1]%Forall_cons. unfold isPathSeparator.
  apply Ascii.eqb_neq in Hx. rewrite Hx. by rewrite IH.
Qed.

Lemma Ext_loop_none (l seen : list ascii) :
  Forall (fun x => x <> "/"%char) l ->
  Forall (fun x => x <> "."%char) l ->
  Ext_loop l seen = "".
Proof.
  revert seen. induction l as [|x l IH]; intros seen; simpl; [done |].
  intros [Hs Hl]%Forall_cons [Hd Hl']%Forall_cons. unfold isPathSeparator.
  apply Ascii.eqb_neq in Hs, Hd. rewrite Hs, Hd. by apply IH.
Qed.

Lemma Ext_loop_dot (l1 l2 seen : list ascii) :
  Forall (fun x => x <> "/"%char) l1 ->
  Forall (fun x => x <> "."%char) l1 ->
  Ext_loop (l1 ++ "."%char :: l2) seen
  = string_of_list_ascii ("."%char :: rev l1 ++ seen).
Proof.
  revert seen. induction l1 as [|x l1 IH]; intros seen; simpl; [done |].
  intros [Hs Hl]%Forall_cons [Hd Hl']%Forall_cons. unfold isPathSeparator.
  apply Ascii.eqb_neq in Hs, Hd. rewrite Hs, Hd, IH by done.
  by rewrite <- app_assoc.
Qed.

(** [filepath.Base] of a directory joined with a name. *)
Lemma Base_Join (dir name : string) :
  name <> "" ->
  ContainsByte name "/" = false ->
  Base (Join dir name) = name.
Proof.
  intros Hne Hname%ContainsByte_false_Forall.
  assert (Hpath : exists prefix, Join dir name = prefix +:+ "/" +:+ name).
  { unfold Join. destruct (String.eqb dir "/"); [by exists "" | by exists dir]. }
  destruct Hpath as [prefix ->]. unfold Base.
  change (prefix +:+ "/" +:+ name) with (prefix +:+ String "/" name).
  assert (Hnonempty : String.eqb (prefix +:+ String "/" name) "" = false)
    by (by destruct prefix).
  rewrite Hnonempty, list_ascii_of_string_append. simpl.
  rewrite rev_app_distr. simpl. rewrite <- app_assoc. simpl.
  assert (Hrev : Forall (fun x => x <> "/"%char) (rev (list_ascii_of_string name)))
    by (by apply Forall_rev).
  destruct (rev (list_ascii_of_string name)) as [|c l] eqn:Hl.
  { destruct name as [|x name]; [done |]. simpl in Hl.
    by apply app_eq_nil in Hl as [_ ?]. }
  simpl. apply Forall_cons in Hrev as [Hc Hrest]. unfold isPathSeparator.
  apply Ascii.eqb_neq in Hc. rewrite Hc.
  cbn [untilSeparator]. unfold isPathSeparator. rewrite Hc.
  rewrite (untilSeparator_app l) by done.
  assert (Hback : string_of_list_ascii (rev (c :: l)) = name).
  { rewrite <- Hl, rev_involutive. apply string_of_list_ascii_of_string. }
  rewrite Hback.
  destruct (String.eqb name "") eqn:Hempty; [| done].
  by apply String.eqb_eq in Hempty.
Qed.

(** X4. The identifier of a provider is the name of its file without the
    last extension: the file [stem.ext] of the directory is registered as
    [stem] (so a name that starts with its only dot gives the empty
    identifier, and a stem with dots an identifier with dots), and a file
    whose name has no dot under its own name. *)
Theorem providerName_of_file (dir stem ext name : string) :
  (ContainsByte stem "/" = false ->
   ContainsByte ext "/" = false ->
   ContainsByte ext "." = false ->
   providerName (Join dir (stem +:+ "." +:+ ext)) = stem)
  /\ (name <> "" ->
      ContainsByte name "/" = false ->
      ContainsByte name "." = false ->
      providerName (Join dir name) = name).
Proof.
  split.
  - intros Hstem Hext Hdot. unfold providerName.
    assert (Hfile : ContainsByte (stem +:+ "." +:+ ext) "/" = false).
    { apply ContainsByte_false_Forall.
      rewrite list_ascii_of_string_append. apply Forall_app. split.
      - by apply ContainsByte_false_Forall.
      - simpl. constructor; [done | by apply ContainsByte_false_Forall]. }
    rewrite Base_Join by (done || by destruct stem).
    assert (HExt : Ext (stem +:+ "." +:+ ext) = "." +:+ ext).
    { unfold Ext.
      change (stem +:+ "." +:+ ext) with (stem +:+ String "." ext).
      rewrite list_ascii_of_string_append. simpl.
      rewrite rev_app_distr. simpl. rewrite <- app_assoc. simpl.
      rewrite Ext_loop_dot.
      - rewrite rev_involutive, app_nil_r. simpl.
        by rewrite string_of_list_ascii_of_string.
      - by apply Forall_rev, ContainsByte_false_Forall.
      - by apply Forall_rev, ContainsByte_false_Forall. }
    rewrite HExt. simpl negb. cbv iota.
    rewrite append_length.
    replace (String.length stem + String.length ("." +:+ ext)
             - String.length ("." +:+ ext)) with (String.length stem) by lia.
    apply slice_prefix.
  - intros Hne Hname Hdot. unfold providerName. rewrite Base_Join by done.
    assert (HExt : Ext name = "").
    { unfold Ext. apply Ext_loop_none; by apply Forall_rev, ContainsByte_false_Forall. }
    by rewrite HExt.
Qed.

(** ** One child at a time *)

Lemma bracketed_app (evs1 evs2 : list Event) :
  bracketed evs1 -> bracketed evs2 -> bracketed (evs1 ++ evs2).
Proof.
  intros H1 H2. induction H1 as [| text evs _ IH | path mid evs Hmid _ IH]; simpl.
  - done.
  - by constructor.
  - rewrite <- app_assoc. simpl. by constructor.
Qed.

(** The life of one child: a start, a part of a script, a kill. *)
Lemma bracketed_script (path : string) (script : list Event) (k : nat) :
  Forall (exchange path) script ->
  bracketed (EvStart path :: take k script ++ [EvKill path]).
Proof.
  intros Hscript. apply (bracketed_child path (take k script) []);
    [| constructor].
  by apply Forall_take.
Qed.

Lemma discoveryScript_exchange (path : string) :
  Forall (exchange path) (discoveryScript path).
Proof.
  unfold discoveryScript, exchange.
  repeat (apply List.Forall_cons; [first [by left | right; by eexists] |]).
  apply List.Forall_nil.
Qed.

Lemma callScript_exchange (path callJSON : string) :
  Forall (exchange path) (callScript path callJSON).
Proof.
  unfold callScript, exchange.
  repeat (apply List.Forall_cons; [first [by left | right; by eexists] |]).
  apply List.Forall_nil.
Qed.

(** Case analysis on the answers of the world, shared by the proofs about
    the two handshakes. *)
Ltac answers :=
  repeat match goal with
    | |- context [match ?x with _ => _ end] =>
        match type of x with
        | option error => destruct x eqn:?
        | option RPCError => destruct x eqn:?
        | sum error _ => destruct x eqn:?
        | prod string (option error) => destruct x as [? [?|]] eqn:?
        end; cbn [app fst snd]
    end.

Ltac script_prefix :=
  first [ exists 0; split; [reflexivity | done]
        | exists 1; split; [reflexivity | done]
        | exists 2; split; [reflexivity | done]
        | exists 3; split; [reflexivity | done]
        | exists 4; split; [reflexivity | done] ].

(** The events of [getToolInfos]: none, or one child taken through a part
    of the handshake and killed. *)
Lemma getToolInfos_events (w : World) (codec : JSONCodec) (mcpPath : string) :
  let '(_, err, evs) := getToolInfos w codec mcpPath in
  (evs = [] /\ is_Some err)
  \/ exists k,
       evs = (EvStart mcpPath :: take k (discoveryScript mcpPath)
                ++ [EvKill mcpPath])%list
       /\ (err = None -> k = 4).
Proof.
  unfold getToolInfos, getToolInfos_session, getToolInfos_exchange, discoveryScript.
  unfold bind, check, checked, emit, ret.
  answers; try (left; split; [reflexivity | by eexists]); right; script_prefix.
Qed.

Lemma started_exchange (path : string) (mid : list Event) :
  Forall (exchange path) mid -> started mid = [].
Proof.
  induction 1 as [|ev mid [-> | [data ->]] _ IH]; simpl; done.
Qed.

Lemma started_script (path : string) (script : list Event) (k : nat) :
  Forall (exchange path) script ->
  started (EvStart path :: take k script ++ [EvKill path]) = [path].
Proof.
  intros Hscript. unfold started. simpl. rewrite omap_app. simpl.
  fold (started (take k script)).
  by rewrite (started_exchange path), app_nil_r by (by apply Forall_take).
Qed.

(** X5. The handshake of discovery: [getToolInfos] either fails before any
    child exists, or starts the executable once, writes [initialize], reads,
    writes [tools/list], reads, in this order and up to the first failure,
    and kills the child; it returns tools only after the whole exchange, and
    none with an error. *)
Theorem getToolInfos_protocol (w : World) (codec : JSONCodec) (mcpPath : string) :
  let '(toolInfos, err, evs) := getToolInfos w codec mcpPath in
  ((evs = [] /\ is_Some err)
   \/ exists k,
        evs = (EvStart mcpPath :: take k (discoveryScript mcpPath)
                 ++ [EvKill mcpPath])%list
        /\ (err = None -> k = 4))
  /\ (is_Some err -> toolInfos = []).
Proof.
  pose proof (getToolInfos_events w codec mcpPath) as Hevents.
  unfold getToolInfos in *.
  destruct (getToolInfos_session w codec mcpPath) as [evs [err | toolInfos]].
  - split; [exact Hevents | done].
  - split; [exact Hevents | by intros [? [=]]].
Qed.

(** The events of [ExecuteTool]: none, or the child of the resolved endpoint
    taken through a part of the call and killed. *)
Lemma ExecuteTool_events (w : World) (codec : JSONCodec) (m : MCPManager)
    (toolName : string) (parameters : option (list (string * JSON))) :
  let '(_, err, evs) := ExecuteTool w codec m toolName parameters in
  (evs = [] /\ is_Some err)
  \/ exists endpoint localName k,
       GetMCPForTool m toolName = (Some endpoint, localName, None)
       /\ evs = (EvStart (Path endpoint)
                   :: take k (callScript (Path endpoint)
                                (Marshal codec (callRequest localName parameters)).1)
                   ++ [EvKill (Path endpoint)])%list
       /\ (err = None -> k = 4).
Proof.
  unfold ExecuteTool, ExecuteTool_session.
  destruct (GetMCPForTool m toolName) as [[[endpoint|] localName] [err|]];
    try (left; split; [reflexivity | by eexists]).
  unfold ExecuteTool_exchange, callScript, bind, check, checked, emit, ret.
  answers; try (left; split; [reflexivity | by eexists]);
    right; exists endpoint, localName;
    try match goal with H : Marshal _ _ = _ |- _ => rewrite H; cbn [fst] end;
    first [ exists 0; split; [reflexivity |]; split; [reflexivity | done]
          | exists 1; split; [reflexivity |]; split; [reflexivity | done]
          | exists 2; split; [reflexivity |]; split; [reflexivity | done]
          | exists 3; split; [reflexivity |]; split; [reflexivity | done]
          | exists 4; split; [reflexivity |]; split; [reflexivity | done] ].
Qed.

(** X6. The call of a tool: [ExecuteTool] either fails before any child
    exists, or starts the executable of the resolved endpoint once, writes
    [initialize], reads, writes the marshalled [tools/call] for the local
    name, reads, in this order and up to the first failure, and kills the
    child; a result is returned only after the whole exchange, and it is the
    [result] of the decoded response, which then has no [error]. *)
Theorem ExecuteTool_protocol (w : World) (codec : JSONCodec) (m : MCPManager)
    (toolName : string) (parameters : option (list (string * JSON))) :
  let '(result, err, evs) := ExecuteTool w codec m toolName parameters in
  ((evs = [] /\ is_Some err)
   \/ exists endpoint localName k,
        GetMCPForTool m toolName = (Some endpoint, localName, None)
        /\ evs = (EvStart (Path endpoint)
                    :: take k (callScript (Path endpoint)
                                 (Marshal codec (callRequest localName parameters)).1)
                    ++ [EvKill (Path endpoint)])%list
        /\ (err = None -> k = 4))
  /\ (err = None ->
      exists endpoint localName callJSON response resp,
        GetMCPForTool m toolName = (Some endpoint, localName, None)
        /\ Marshal codec (callRequest localName parameters) = (callJSON, None)
        /\ Read w (Path endpoint) [initMsg +:+ newline; callJSON +:+ newline]
           = inr response
        /\ Unmarshal_response codec response = inr resp
        /\ RespError resp = None
        /\ result = Result resp).
Proof.
  assert (Hsuccess : forall result evs,
            ExecuteTool w codec m toolName parameters = (result, None, evs) ->
            exists endpoint localName callJSON response resp,
              GetMCPForTool m toolName = (Some endpoint, localName, None)
              /\ Marshal codec (callRequest localName parameters) = (callJSON, None)
              /\ Read w (Path endpoint) [initMsg +:+ newline; callJSON +:+ newline]
                 = inr response
              /\ Unmarshal_response codec response = inr resp
              /\ RespError resp = None
              /\ result = Result resp).
  { unfold ExecuteTool, ExecuteTool_session.
    destruct (GetMCPForTool m toolName) as [[[endpoint|] localName] [e|]];
      try done.
    unfold ExecuteTool_exchange, bind, check, checked, emit, ret.
    answers; try done.
    intros result evs [= <- _]. by eexists endpoint, localName, _, _, _. }
  pose proof (ExecuteTool_events w codec m toolName parameters) as Hevents.
  destruct (ExecuteTool w codec m toolName parameters) as [[result err] evs].
  split; [exact Hevents |]. intros ->. by eapply Hsuccess.
Qed.

(** The events of one call of the callback of [LoadMCPs]. *)
Lemma LoadMCPs_fn_events (w : World) (codec : JSONCodec) (path : string)
    (d : option DirEntry) (err : option error)
    (st : gmap string MCPInfo * list Event) :
  exists evs,
    (LoadMCPs_fn w codec path d err st).1.2 = (st.2 ++ evs)%list
    /\ bracketed evs
    /\ started evs `sublist_of`
         match err, d with
         | None, Some d => candidates path d
         | _, _ => []
         end.
Proof.
  assert (Hnone : forall sublists : list string,
            exists evs, st.2 = (st.2 ++ evs)%list /\ bracketed evs
                        /\ started evs `sublist_of` sublists).
  { intros sublists. exists []. rewrite app_nil_r.
    split; [done |]. split; [constructor | apply sublist_nil_l]. }
  unfold LoadMCPs_fn.
  destruct err as [e|]; [apply Hnone |].
  destruct d as [[name info | name readdir dirs]|]; simpl; try apply Hnone.
  destruct info as [e | mode]; simpl; [apply Hnone |].
  destruct (N.land mode 73 =? 0)%N; simpl; [apply Hnone |].
  pose proof (getToolInfos_events w codec path) as Hevents.
  destruct (getToolInfos w codec path) as [[toolInfos err] evs].
  assert (Hchild : bracketed evs /\ started evs `sublist_of` [path]).
  { destruct Hevents as [[-> _] | (k & -> & _)].
    - split; [constructor | apply sublist_nil_l].
    - split; [apply bracketed_script, discoveryScript_exchange |].
      by rewrite (started_script _ _ _ (discoveryScript_exchange path)). }
  destruct Hchild as [Hbracketed Hstarted].
  destruct err as [e|]; simpl; eexists; (split; [reflexivity |]).
  - split.
    + apply bracketed_app; [done | repeat constructor].
    + unfold started in *. rewrite omap_app. simpl. by rewrite app_nil_r.
  - split.
    + apply bracketed_app; [done | repeat constructor].
    + unfold started in *. rewrite omap_app. simpl. by rewrite app_nil_r.
Qed.

(** The events of the walk: children one at a time, each started from a
    candidate, in the order of the walk and at most once. *)
Lemma walkDir_events (w : World) (codec : JSONCodec) (d : DirEntry) :
  forall (path : string) (st : gmap string MCPInfo * list Event),
    exists evs,
      (walkDir (LoadMCPs_fn w codec) path d st).1.2 = (st.2 ++ evs)%list
      /\ bracketed evs
      /\ started evs `sublist_of` candidates path d.
Proof.
  induction d as [name info | name readdir dirs IH] using DirEntry_tree_ind;
    intros path st.
  - destruct (LoadMCPs_fn_events w codec path (Some (File name info)) None st)
      as (evs & Hevs & Hbracketed & Hstarted).
    exists evs. cbn [walkDir].
    destruct (LoadMCPs_fn w codec path (Some (File name info)) None st)
      as [st1 [err|]]; done.
  - cbn [walkDir]. cbn [LoadMCPs_fn IsDir].
    destruct readdir as [err|].
    + cbn [LoadMCPs_fn]. exists []. rewrite app_nil_r.
      split; [done |]. split; [constructor | apply sublist_nil_l].
    + cbn [candidates].
      revert st. induction IH as [|d1 rest Hd1 _ IHrest]; intros st.
      * exists []. rewrite app_nil_r.
        split; [done |]. split; [constructor | apply sublist_nil_l].
      * cbn [flat_map].
        destruct (Hd1 (Join path (DirEntryName d1)) st)
          as (evs1 & Hevs1 & Hbracketed1 & Hstarted1).
        destruct (walkDir (LoadMCPs_fn w codec) (Join path (DirEntryName d1)) d1 st)
          as [st1 [err|]]; simpl in Hevs1.
        -- exists evs1. split; [done |]. split; [done |].
           by apply sublist_inserts_r.
        -- destruct (IHrest st1) as (evs2 & Hevs2 & Hbracketed2 & Hstarted2).
           exists (evs1 ++ evs2)%list. split; [| split].
           ++ rewrite Hevs2, Hevs1. by rewrite app_assoc.
           ++ by apply bracketed_app.
           ++ unfold started in *. rewrite omap_app. by apply sublist_app.
Qed.

(** X7. Reloading runs one child at a time: in the events of [LoadMCPs]
    every child is started, exchanged with and killed before the next, none
    is left running when [LoadMCPs] returns (with or without error), and
    the children started are candidates of the walk, in its order, each at
    most once. *)
Theorem LoadMCPs_processes (w : World) (codec : JSONCodec) (m : MCPManager) :
  let '(_, _, evs) := LoadMCPs w codec m in
  bracketed evs
  /\ match Lstat w (mcpDirectory m) with
     | inl _ => evs = []
     | inr root => started evs `sublist_of` candidates (mcpDirectory m) root
     end.
Proof.
  unfold LoadMCPs, WalkDir.
  destruct (Lstat w (mcpDirectory m)) as [e | root].
  - simpl. split; [constructor | done].
  - destruct (walkDir_events w codec root (mcpDirectory m) (∅, []))
      as (evs & Hevs & Hbracketed & Hstarted).
    destruct (walkDir (LoadMCPs_fn w codec) (mcpDirectory m) root (∅, []))
      as [[mcpMap' evs'] err].
    simpl in Hevs. by subst evs'.
Qed.

(** ** The registry after a reload *)

(** X8. Whatever the reload returns, every endpoint of the registry it
    leaves is stored under its own [Name], which is the identifier derived
    from its [Path], and holds the catalog its handshake returned (none if
    the handshake failed): nothing of the registry before the reload
    survives, and the two names of an endpoint never differ. *)
Theorem registry_entries_consistent (w : World) (codec : JSONCodec)
    (m : MCPManager) (name : string) (endpoint : MCPInfo) :
  mcpMap (LoadMCPs w codec m).1.1 !! name = Some endpoint ->
  MCPName endpoint = name
  /\ providerName (Path endpoint) = name
  /\ ToolInfos endpoint
     = match getToolInfos w codec (Path endpoint) with
       | (toolInfos, None, _) => toolInfos
       | (_, Some _, _) => []
       end.
Proof.
  destruct (Lstat w (mcpDirectory m)) as [e | root] eqn:Hroot.
  - unfold LoadMCPs, WalkDir. rewrite Hroot. simpl. by rewrite lookup_empty.
  - pose proof (LoadMCPs_registry w codec m root Hroot) as H.
    destruct (LoadMCPs w codec m) as [[m' err] evs]. simpl.
    destruct H as ((visited & _ & ->) & _ & _).
    by intros (path & _ & <- & ->)%register_fold_lookup.
Qed.

(** X9. Starting the server: [NewMCPServer] fails exactly when the walk of
    the directory fails, that is when [Lstat] fails on the directory or some
    entry under it cannot be read, and then with the error of the walk under
    the prefix ["failed to load MCPs: "]; no failure of a handshake prevents
    the start. On success the server holds the registry of all candidates. *)
Theorem NewMCPServer_startup (w : World) (codec : JSONCodec) (mcpDirectory : string) :
  let '(server, err, _) := NewMCPServer w codec mcpDirectory in
  match Lstat w mcpDirectory with
  | inl e =>
      server = None /\ err = Some (Errorf_w "failed to load MCPs: " e)
  | inr root =>
      (readable root = true ->
       err = None
       /\ exists s, server = Some s
            /\ mcpMap (mcpManager s)
               = fold_left (register w codec) (candidates mcpDirectory root) ∅)
      /\ (readable root = false ->
          server = None
          /\ exists e, err = Some (Errorf_w "failed to load MCPs: " e))
  end.
Proof.
  unfold NewMCPServer.
  destruct (Lstat w mcpDirectory) as [e | root] eqn:Hroot.
  - unfold LoadMCPs, WalkDir. simpl. by rewrite Hroot.
  - pose proof (LoadMCPs_registry w codec (NewMCPManager mcpDirectory) root Hroot)
      as H.
    destruct (LoadMCPs w codec (NewMCPManager mcpDirectory)) as [[m' [e|]] evs];
      simpl in H; destruct H as (_ & Hfull & Herr).
    + split.
      * intros Hreadable. apply Herr in Hreadable. done.
      * intros _. split; [done | by eexists].
    + split.
      * intros _. split; [done |]. eexists. split; [done |]. by apply Hfull.
      * intros Hunreadable. destruct Herr as [Herr _].
        rewrite (Herr eq_refl) in Hunreadable. done.
Qed.

(** ** The dispatcher, all methods *)

(** X10. [tools/list]: for a decoded request with this method the
    dispatcher returns the marshalled frame [{jsonrpc, id, result: {tools}}]
    with the request's id, where [tools] is a rearrangement of the prefixed
    catalogs of the registry, and starts no process. *)
Theorem tools_list_handling (w : World) (codec : JSONCodec) (s : MCPServer)
    (rawRequest : string) (request : Request) :
  Unmarshal_request codec rawRequest = inr request ->
  Method request = "tools/list" ->
  range_order (mcpManager s) (mapRange w (mcpMap (mcpManager s))) ->
  exists tools,
    ProcessRequest w codec s rawRequest
    = (Marshal codec
         (AMap [("jsonrpc", AString "2.0");
                ("id", AJSON (ID request));
                ("result", AMap [("tools", ATools tools)])]), [])
    /\ tools ≡ₚ flat_map prefixedTools (map_to_list (mcpMap (mcpManager s))).
Proof.
  intros Hrequest Hmethod Hvisit.
  exists (GetAllTools w (mcpManager s)). split.
  - unfold ProcessRequest. by rewrite Hrequest, Hmethod.
  - unfold GetAllTools. rewrite GetAllTools_range_flat_map.
    by apply Permutation_flat_map.
Qed.

(** When [ProcessRequest] returns a Go error, with a codec whose [Marshal]
    does not fail. *)
Lemma ProcessRequest_error_iff (w : World) (codec : JSONCodec) (s : MCPServer)
    (rawRequest : string) :
  (forall v, (Marshal codec v).2 = None) ->
  is_Some (ProcessRequest w codec s rawRequest).1.2 <->
  match Unmarshal_request codec rawRequest with
  | inl _ => True
  | inr request =>
      Method request <> "tools/list"
      /\ (Method request = "tools/call" ->
          exists e, Unmarshal_params codec rawRequest = inl e)
  end.
Proof.
  intros Hmarshal. unfold ProcessRequest.
  destruct (Unmarshal_request codec rawRequest) as [e | request]; simpl;
    [split; [done | by eexists] |].
  destruct (String.eqb (Method request) "tools/list") eqn:Hlist.
  - apply String.eqb_eq in Hlist. unfold handleToolsList. simpl.
    rewrite Hmarshal. split; [by intros [? [=]] | by intros [? _]].
  - apply String.eqb_neq in Hlist.
    destruct (String.eqb (Method request) "tools/call") eqn:Hcall.
    + apply String.eqb_eq in Hcall. unfold handleToolsCall.
      destruct (Unmarshal_params codec rawRequest) as [e | params]; simpl.
      * split; [intros _; split; [done | by eexists] | by eexists].
      * destruct (ExecuteTool w codec (mcpManager s) (ParamsName params)
                    (Arguments params)) as [[result [err|]] evs]; simpl;
          rewrite Hmarshal; (split; [by intros [? [=]] |]);
          intros [_ Hparams]; by destruct (Hparams Hcall).
    + apply String.eqb_neq in Hcall. simpl.
      split; [done | by eexists].
Qed.

(** X11. Protocol failures against tool failures: with an encoder that does
    not fail, [ProcessRequest] returns a Go error, and then no bytes and no
    event, exactly when the envelope does not decode, or the method is
    neither [tools/list] nor [tools/call], or the method is [tools/call] and
    [params] do not decode. No failure of a tool or of its provider is
    among these: they are answered in a frame. *)
Theorem ProcessRequest_failures (w : World) (codec : JSONCodec) (s : MCPServer)
    (rawRequest : string) :
  (forall v, (Marshal codec v).2 = None) ->
  let '(response, err, evs) := ProcessRequest w codec s rawRequest in
  (is_Some err <->
     match Unmarshal_request codec rawRequest with
     | inl _ => True
     | inr request =>
         Method request <> "tools/list"
         /\ (Method request = "tools/call" ->
             exists e, Unmarshal_params codec rawRequest = inl e)
     end)
  /\ (is_Some err -> response = "" /\ evs = []).
Proof.
  intros Hmarshal.
  pose proof (ProcessRequest_error_iff w codec s rawRequest Hmarshal) as Hiff.
  assert (Hempty : forall response e evs,
            ProcessRequest w codec s rawRequest = (response, Some e, evs) ->
            response = "" /\ evs = []).
  { unfold ProcessRequest, handleToolsList, handleToolsCall.
    intros response e evs.
    destruct (Unmarshal_request codec rawRequest) as [e' | request];
      [by intros [= <- _ <-] |].
    destruct (String.eqb (Method request) "tools/list").
    { pose proof (Hmarshal
                    (AMap [("jsonrpc", AString "2.0");
                           ("id", AJSON (ID request));
                           ("result",
                            AMap [("tools", ATools (GetAllTools w (mcpManager s)))])]))
        as Hm.
      destruct (Marshal codec _) as [bytes o]. simpl in Hm. subst o. done. }
    destruct (String.eqb (Method request) "tools/call");
      [| by intros [= <- _ <-]].
    destruct (Unmarshal_params codec rawRequest) as [e' | params];
      [by intros [= <- _ <-] |].
    destruct (ExecuteTool w codec (mcpManager s) (ParamsName params)
                (Arguments params)) as [[result [err|]] evs'].
    - pose proof (Hmarshal (errorResponse (ID request) err)) as Hm.
      destruct (Marshal codec _) as [bytes o]. simpl in Hm. subst o. done.
    - pose proof (Hmarshal (successResponse (ID request) result)) as Hm.
      destruct (Marshal codec _) as [bytes o]. simpl in Hm. subst o. done. }
  destruct (ProcessRequest w codec s rawRequest) as [[response err] evs].
  simpl in Hiff. split; [exact Hiff |].
  intros [e ->]. by eapply Hempty.
Qed.

(** X12. A request runs at most one child: the events of [ProcessRequest]
    are those of one started, exchanged-with and killed child or none, and a
    child is started only for a decoded [tools/call] whose name resolves,
    from the [Path] of the resolved endpoint. *)
Theorem ProcessRequest_processes (w : World) (codec : JSONCodec) (s : MCPServer)
    (rawRequest : string) :
  let '(_, _, evs) := ProcessRequest w codec s rawRequest in
  bracketed evs
  /\ (started evs = []
      \/ exists request params endpoint localName,
           Unmarshal_request codec rawRequest = inr request
           /\ Method request = "tools/call"
           /\ Unmarshal_params codec rawRequest = inr params
           /\ GetMCPForTool (mcpManager s) (ParamsName params)
              = (Some endpoint, localName, None)
           /\ started evs = [Path endpoint]).
Proof.
  unfold ProcessRequest, handleToolsList, handleToolsCall.
  destruct (Unmarshal_request codec rawRequest) as [e | request] eqn:Hrequest;
    [simpl; split; [constructor | by left] |].
  destruct (String.eqb (Method request) "tools/list");
    [destruct (Marshal codec _); simpl; split; [constructor | by left] |].
  destruct (String.eqb (Method request) "tools/call") eqn:Hcall;
    [| simpl; split; [constructor | by left]].
  apply String.eqb_eq in Hcall.
  destruct (Unmarshal_params codec rawRequest) as [e | params] eqn:Hparams;
    [simpl; split; [constructor | by left] |].
  pose proof (ExecuteTool_events w codec (mcpManager s) (ParamsName params)
                (Arguments params)) as Hevents.
  destruct (ExecuteTool w codec (mcpManager s) (ParamsName params)
              (Arguments params)) as [[result err] evs].
  assert (Hgoal : bracketed evs
            /\ (started evs = []
                \/ exists endpoint localName,
                     GetMCPForTool (mcpManager s) (ParamsName params)
                     = (Some endpoint, localName, None)
                     /\ started evs = [Path endpoint])).
  { destruct Hevents as [[-> _] | (endpoint & localName & k & Hresolve & -> & _)].
    - split; [constructor | by left].
    - split; [apply bracketed_script, callScript_exchange |].
      right. exists endpoint, localName. split; [done |].
      apply started_script, callScript_exchange. }
  destruct Hgoal as [Hbracketed Hstarted].
  destruct err; destruct (Marshal codec _) as [bytes o]; simpl;
    (split; [exact Hbracketed |]);
    (destruct Hstarted as [Hnone | (endpoint & localName & Hresolve & Hone)];
     [by left | right; by exists request, params, endpoint, localName]).
Qed.

(** ** The HTTP handler *)

(** X13. The status of the handler of [ServeHTTP], with an encoder that
    does not fail: it answers 200 with the JSON of the dispatcher exactly
    to a POST whose body is read, whose envelope decodes and whose method is
    [tools/list], or [tools/call] with decodable [params] (a failing tool
    included); any other method of HTTP gets 405 without the request being
    processed, an unreadable body 400, and every other request 500. *)
Theorem ServeHTTP_status (w : World) (codec : JSONCodec) (s : MCPServer)
    (method : string) (body : error + string) :
  (forall v, (Marshal codec v).2 = None) ->
  let '(resp, evs) := ServeHTTP_handler w codec s method body in
  (StatusCode resp = 200%Z <->
     method = "POST"
     /\ exists rawRequest request,
          body = inr rawRequest
          /\ Unmarshal_request codec rawRequest = inr request
          /\ (Method request = "tools/list"
              \/ Method request = "tools/call"
                 /\ exists params, Unmarshal_params codec rawRequest = inr params))
  /\ (StatusCode resp = 200%Z ->
      ContentType resp = "application/json"
      /\ exists rawRequest,
           body = inr rawRequest
           /\ ProcessRequest w codec s rawRequest = (Body resp, None, evs))
  /\ (method <> "POST" ->
      resp = httpError "Method not allowed" 405 /\ evs = [])
  /\ (method = "POST" ->
      (exists e, body = inl e) ->
      resp = httpError "Failed to read request body" 400 /\ evs = [])
  /\ (StatusCode resp = 200 \/ StatusCode resp = 400
      \/ StatusCode resp = 405 \/ StatusCode resp = 500)%Z.
Proof.
  intros Hmarshal. unfold ServeHTTP_handler.
  destruct (String.eqb method "POST") eqn:Hpost; simpl.
  - apply String.eqb_eq in Hpost as ->.
    destruct body as [e | rawRequest].
    { simpl. split; [| split; [| split; [| split]]].
      - split; [done |]. by intros (_ & raw & request & [=] & _).
      - done.
      - intros H. by destruct H.
      - done.
      - right. by left. }
    pose proof (ProcessRequest_error_iff w codec s rawRequest Hmarshal) as Hiff.
    destruct (ProcessRequest w codec s rawRequest) as [[response [err|]] evs]
      eqn:Hprocess; simpl in Hiff; simpl.
    + split; [| split; [| split; [| split]]].
      * split; [done |].
        intros (_ & raw & request & [= <-] & Hrequest & Hmethod).
        destruct Hiff as [Hiff _].
        assert (Herr : is_Some (Some err)) by (by eexists).
        apply Hiff in Herr. rewrite Hrequest in Herr.
        destruct Herr as [Hlist Hcall].
        destruct Hmethod as [Hm | [Hm [params Hparams]]]; [done |].
        destruct (Hcall Hm) as [e He]. congruence.
      * done.
      * intros H. by destruct H.
      * by intros _ [? [=]].
      * do 3 right. done.
    + split; [| split; [| split; [| split]]].
      * split; [| done]. intros _. split; [done |]. exists rawRequest.
        destruct Hiff as [_ Hiff].
        destruct (Unmarshal_request codec rawRequest) as [e | request] eqn:Hr.
        { by destruct (Hiff I) as [? [=]]. }
        exists request. split; [done |]. split; [done |].
        destruct (decide (Method request = "tools/list")) as [Hl | Hl];
          [by left | right].
        destruct (decide (Method request = "tools/call")) as [Hc | Hc].
        -- split; [done |].
           destruct (Unmarshal_params codec rawRequest) as [e | params] eqn:Hp;
             [| by eexists].
           assert (Herr : is_Some (None : option error))
             by (apply Hiff; split; [done | by eexists]).
           by destruct Herr as [? [=]].
        -- assert (Herr : is_Some (None : option error))
             by (apply Hiff; split; [done | done]).
           by destruct Herr as [? [=]].
      * intros _. split; [done |]. by exists rawRequest.
      * intros H. by destruct H.
      * by intros _ [? [=]].
      * by left.
  - apply String.eqb_neq in Hpost. split; [| split; [| split; [| split]]].
    + split; [done |]. by intros [? _].
    + done.
    + done.
    + done.
    + do 2 right. by left.
Qed.

(** ** The proxy *)

(** X14. The proxy passes the answer through: [MCPProxy.ProcessRequest]
    returns the body of the reply, unchanged and without error, exactly when
    the request is built and sent, the status is 200 and the body is read;
    otherwise it returns no bytes, and for another status the error names
    that status. *)
Theorem proxy_passthrough (net : Net) (p : MCPProxy) (request : string) :
  let '(response, err) := Proxy_ProcessRequest net p request in
  (err = None <->
     NewRequest net (httpEndpoint p) = None
     /\ Do net p request = inr {| Status := 200; ReplyBody := inr response |})
  /\ (is_Some err -> response = "")
  /\ (forall reply,
        NewRequest net (httpEndpoint p) = None ->
        Do net p request = inr reply ->
        Status reply <> 200%Z ->
        err = Some (errorString ("received non-OK response: "
                                   +:+ Itoa (Status reply)))).
Proof.
  unfold Proxy_ProcessRequest.
  destruct (NewRequest net (httpEndpoint p)) as [e|]; simpl.
  { split; [| split].
    - split; [done | by intros [[=] _]].
    - done.
    - by intros reply [=]. }
  destruct (Do net p request) as [e | [status body]]; simpl.
  { split; [| split].
    - split; [done | by intros [_ [=]]].
    - done.
    - by intros reply _ [=]. }
  destruct (status =? 200)%Z eqn:Hstatus; simpl.
  - apply Z.eqb_eq in Hstatus as ->. destruct body as [e | body]; simpl.
    + split; [| split].
      * split; [done | by intros [_ [=]]].
      * done.
      * intros reply _ [= <-] Hne. by destruct Hne.
    + split; [| split].
      * done.
      * by intros [? [=]].
      * intros reply _ [= <-] Hne. by destruct Hne.
  - apply Z.eqb_neq in Hstatus. split; [| split].
    + split; [done |]. intros [_ [= Hs _]]. by destruct Hstatus.
    + done.
    + by intros reply _ [= <-] _.
Qed.

(** X15. The loop of the proxy: while writes to standard output succeed, the
    proxy writes, in the order of the reads, the body of the answer to every
    chunk that is not empty and whose request succeeds, and nothing else; a
    failed request costs its answer only. What is read after the first turn
    that ends the loop (the context cancelled by a signal, [io.EOF] or an
    error of [stdin.Read]) is not forwarded, and [main] has returned exactly
    when such a turn occurred. *)
Theorem proxyLoop_forwards (net : Net) (p : MCPProxy) (reads : list Turn) :
  (forall data, StdoutWrite net data = None) ->
  written (proxyLoop net p reads) = omap (forwarded net p) (chunks reads)
  /\ (returned (proxyLoop net p reads) = true <->
      length (chunks reads) < length reads).
Proof.
  intros Hstdout. induction reads as [|[| | err | data] reads [IHw IHr]]; simpl.
  - split; [done |]. split; [done | lia].
  - split; [done |]. split; [lia | done].
  - split; [done |]. split; [lia | done].
  - split; [done |]. split; [lia | done].
  - unfold forwarded at 1.
    destruct (0 <? String.length data)%nat.
    + destruct (Proxy_ProcessRequest net p data) as [response [err|]]; simpl.
      * split; [exact IHw |]. rewrite IHr. lia.
      * rewrite Hstdout. simpl. split; [by rewrite IHw |]. rewrite IHr. lia.
    + split; [exact IHw |]. rewrite IHr. lia.
Qed.

(** X16. The proxy in front of the server: a request that the dispatcher
    answers, a failing tool included, comes back through the proxy byte for
    byte; a request on which the dispatcher returns a Go error (undecodable,
    or of an unsupported method) comes back as the error of status 500, so
    the proxy writes nothing to its client for it. *)
Theorem proxy_over_server (w : World) (codec : JSONCodec) (s : MCPServer)
    (p : MCPProxy) (rawRequest : string) :
  let '(response, err, _) := ProcessRequest w codec s rawRequest in
  Proxy_ProcessRequest (serverNet w codec s) p rawRequest
  = match err with
    | None => (response, None)
    | Some _ => ("", Some (errorString "received non-OK response: 500"))
    end
  /\ (rawRequest <> "" ->
      written (proxyLoop (serverNet w codec s) p [Chunk rawRequest])
      = match err with None => [response] | Some _ => [] end).
Proof.
  assert (Hproxy :
            Proxy_ProcessRequest (serverNet w codec s) p rawRequest
            = match ProcessRequest w codec s rawRequest with
              | (response, None, _) => (response, None)
              | (_, Some _, _) =>
                  ("", Some (errorString "received non-OK response: 500"))
              end).
  { unfold Proxy_ProcessRequest, serverNet, ServeHTTP_handler. simpl.
    by destruct (ProcessRequest w codec s rawRequest) as [[response [err|]] evs]. }
  assert (Hloop : rawRequest <> "" ->
            written (proxyLoop (serverNet w codec s) p [Chunk rawRequest])
            = match Proxy_ProcessRequest (serverNet w codec s) p rawRequest with
              | (response, None) => [response]
              | (_, Some _) => []
              end).
  { intros Hne. simpl.
    destruct rawRequest as [|c rest]; [done |]. simpl.
    by destruct (Proxy_ProcessRequest (serverNet w codec s) p (String c rest))
      as [response [err|]]. }
  destruct (ProcessRequest w codec s rawRequest) as [[response [err|]] evs];
    (split; [exact Hproxy |]); intros Hne; by rewrite (Hloop Hne), Hproxy.
Qed.

(** ** The mutex, further *)

Lemma readLocks_zero (rs : list reader) (i : nat) (visited : list (string * MCPInfo)) :
  readLocks rs = 0 -> rs !! i <> Some (RLocked visited).
Proof.
  intros Hzero Hi.
  pose proof (readLocks_insert rs i _ RStart Hi) as H. simpl in H. lia.
Qed.

(** X17. Mutual exclusion: in every state the interleavings reach, the
    counter of the mutex is the number of readers in their loop, the writer
    holds the mutex exactly from its [Lock] to its [Unlock], and no reader
    is in its loop while it does: the map is assigned only while no
    [GetAllTools] ranges over it. *)
Theorem mutual_exclusion (pre : gmap string MCPInfo)
    (plan : list (string * MCPInfo)) (n : nat) (s : state) :
  rtc (step plan) (init pre n) s ->
  readerCount (mutex s) = readLocks (reads s)
  /\ (writerHeld (mutex s) = true <->
      reload s = WLocked \/ exists rest, reload s = WWalk rest)
  /\ (forall i visited,
        reads s !! i = Some (RLocked visited) ->
        reload s = WStart \/ reload s = WReturned).
Proof.
  intros Hreach.
  pose proof (inv_reachable pre plan _ _ (inv_init pre plan n) Hreach)
    as (Hw & Hcount & Hexcl & _ & _).
  split; [exact Hcount |]. split.
  - rewrite Hw. destruct (reload s); split; try done; eauto.
    + by intros [? | [? ?]].
    + by intros [? | [? ?]].
  - intros i visited Hi.
    destruct (reload s) eqn:Hr; [by left | | | by right]; exfalso;
      (eapply readLocks_zero; [| exact Hi]); rewrite <- Hcount; by apply Hexcl.
Qed.

(** A list of readers has all returned or holds one that has not. *)
Lemma readers_returned_or_not (rs : list reader) :
  Forall (fun r => exists allTools, r = RReturned allTools) rs
  \/ exists i, rs !! i = Some RStart \/ exists visited, rs !! i = Some (RLocked visited).
Proof.
  induction rs as [|r rs [IH | [i IH]]].
  - left. constructor.
  - destruct r as [| visited | allTools].
    + right. exists 0. by left.
    + right. exists 0. right. by exists visited.
    + left. constructor; [by eexists | done].
  - right. exists (S i). exact IH.
Qed.

Lemma readLocks_returned (rs : list reader) :
  Forall (fun r => exists allTools, r = RReturned allTools) rs -> readLocks rs = 0.
Proof. induction 1 as [|r rs [allTools ->] _ IH]; simpl; done. Qed.

Lemma forallb_false_witness {A : Type} (f : A -> bool) (l : list A) :
  forallb f l = false -> exists x, x ∈ l /\ f x = false.
Proof.
  induction l as [|x l IH]; simpl; [done |].
  destruct (f x) eqn:Hx; simpl.
  - intros (y & Hy & Hfy)%IH. exists y. split; [by right | done].
  - intros _. exists x. split; [by left | done].
Qed.

(** X18. No deadlock: in every state the interleavings reach, either the
    reload and all readers have returned, or some goroutine can take a
    step. *)
Theorem deadlock_free (pre : gmap string MCPInfo)
    (plan : list (string * MCPInfo)) (n : nat) (s : state) :
  rtc (step plan) (init pre n) s ->
  (reload s = WReturned
   /\ Forall (fun r => exists allTools, r = RReturned allTools) (reads s))
  \/ exists a s', exec plan a s = Some s'.
Proof.
  intros Hreach.
  pose proof (inv_reachable pre plan _ _ (inv_init pre plan n) Hreach)
    as (Hw & Hcount & Hexcl & _ & _).
  assert (Hreader : writerHeld (mutex s) = false ->
            (exists i, reads s !! i = Some RStart
                       \/ exists visited, reads s !! i = Some (RLocked visited)) ->
            exists a s', exec plan a s = Some s').
  { intros Hfree [i [Hi | [visited Hi]]].
    - exists (RLock i). simpl. rewrite Hi, Hfree. by eexists.
    - destruct (forallb (fun mcpName => bool_decide (mcpName ∈ visited.*1))
                        (map_to_list (shared s)).*1) eqn:Hall.
      + exists (RUnlock i). simpl. rewrite Hi, Hall. by eexists.
      + apply forallb_false_witness in Hall as (mcpName & Hin & Hnew).
        apply list_elem_of_fmap in Hin as ([k mcpInfo] & -> & Hin).
        apply elem_of_map_to_list in Hin. simpl in *.
        exists (Visit i k). simpl. rewrite Hi, Hnew, Hin. by eexists. }
  destruct (reload s) as [| | [|[name mcpInfo] rest] |] eqn:Hr.
  - destruct (readers_returned_or_not (reads s)) as [Hall | Hsome].
    + right. exists Lock. simpl. rewrite Hr, Hw, Hcount.
      rewrite (readLocks_returned _ Hall). simpl. by eexists.
    + right. by apply Hreader.
  - right. exists Clear. simpl. rewrite Hr. by eexists.
  - right. exists Unlock. simpl. rewrite Hr. by eexists.
  - right. exists Assign. simpl. rewrite Hr. by eexists.
  - destruct (readers_returned_or_not (reads s)) as [Hall | Hsome].
    + by left.
    + right. by apply Hreader.
Qed.

(** ** Examples of the further properties *)

Import ProxyExamples.

(** Witness of X1. *)
Lemma resolve_decomposes_witness :
  GetMCPForTool registry "calculator-mcp.divide"
    = (Some calculatorEndpoint, "divide", None)
  /\ exists id,
       "calculator-mcp.divide" = id +:+ "." +:+ "divide"
       /\ ContainsByte id "." = false
       /\ mcpMap registry !! id = Some calculatorEndpoint.
Proof.
  assert (H : GetMCPForTool registry "calculator-mcp.divide"
              = (Some calculatorEndpoint, "divide", None)) by (by vm_compute).
  split; [exact H |].
  exact (proj2 (resolve_decomposes registry _ _ _ _ H)).
Defined.

(** The registry of the scenario, entry by entry. *)
Lemma scenario_registry_entries (id : string) (endpoint : MCPInfo) :
  mcpMap registry !! id = Some endpoint ->
  (id, endpoint) = ("calculator-mcp", calculatorEndpoint)
  \/ (id, endpoint)
     = ("hello-mcp",
        {| MCPName := "hello-mcp"; Path := "/mcps/hello-mcp";
           ToolInfos := helloTools |}).
Proof.
  intros H%elem_of_map_to_list.
  assert (Hlist : map_to_list (mcpMap registry)
                  = [("calculator-mcp", calculatorEndpoint);
                     ("hello-mcp",
                      {| MCPName := "hello-mcp"; Path := "/mcps/hello-mcp";
                         ToolInfos := helloTools |})]) by (by vm_compute).
  rewrite Hlist in H. apply list_elem_of_In in H. simpl in H.
  destruct H as [<- | [<- | []]]; [by left | by right].
Qed.

(** Witness of X2. *)
Lemma listed_names_resolve_witness :
  {| Name := "calculator-mcp.add"; Description := "Add two numbers";
     Parameters := [] |} ∈ GetAllTools scenario registry
  /\ exists id endpoint local,
       mcpMap registry !! id = Some endpoint
       /\ local ∈ ToolInfos endpoint
       /\ GetMCPForTool registry "calculator-mcp.add"
          = (Some endpoint, Name local, None).
Proof.
  assert (Hlisted :
            {| Name := "calculator-mcp.add"; Description := "Add two numbers";
               Parameters := [] |} ∈ GetAllTools scenario registry).
  { assert (Hall : GetAllTools scenario registry
                   = (map (prefixed "calculator-mcp") calculatorTools
                        ++ map (prefixed "hello-mcp") helloTools)%list)
      by (by vm_compute).
    rewrite Hall. apply list_elem_of_here. }
  split; [exact Hlisted |].
  assert (Hids : forall id,
            is_Some (mcpMap registry !! id) -> ContainsByte id "." = false).
  { intros id [endpoint [[= -> ->] | [= -> ->]]%scenario_registry_entries]; reflexivity. }
  assert (Hvisit : range_order registry (mapRange scenario (mcpMap registry)))
    by (unfold range_order; reflexivity).
  destruct (listed_names_resolve scenario registry _ Hvisit Hids Hlisted)
    as (id & endpoint & local & Hm & Hlocal & _ & _ & Hresolve).
  by exists id, endpoint, local.
Defined.

(** Witness of X3. *)
Lemma listed_names_distinct_witness :
  NoDup (map Name (GetAllTools scenario registry)).
Proof.
  apply (listed_names_distinct scenario registry).
  - unfold range_order. reflexivity.
  - intros id endpoint [[= -> ->] | [= -> ->]]%scenario_registry_entries;
      (split; [reflexivity |]); compute_done.
Defined.

(** Witness of X4. *)
Lemma providerName_of_file_witness :
  providerName (Join "/mcps" ("calc.v2" +:+ "." +:+ "bin")) = "calc.v2"
  /\ providerName (Join "/mcps" ("" +:+ "." +:+ "profile")) = ""
  /\ providerName (Join "/mcps" "hello-mcp") = "hello-mcp".
Proof.
  split; [| split].
  - by apply (proj1 (providerName_of_file "/mcps" "calc.v2" "bin" "")).
  - by apply (proj1 (providerName_of_file "/mcps" "" "profile" "")).
  - by apply (proj2 (providerName_of_file "/mcps" "" "" "hello-mcp")).
Defined.

(** Witness of X5: a provider that does not start. *)
Lemma getToolInfos_protocol_witness :
  getToolInfos helloBroken exampleCodec "/mcps/hello-mcp"
  = ([], Some (Errorf_w "failed to start MCP: "
                 (errorString "fork/exec /mcps/hello-mcp: exec format error")),
     []).
Proof.
  pose proof (getToolInfos_protocol helloBroken exampleCodec "/mcps/hello-mcp")
    as H.
  destruct (getToolInfos helloBroken exampleCodec "/mcps/hello-mcp")
    as [[toolInfos err] evs] eqn:Heq.
  destruct H as [_ Hnone].
  assert (Herr : err = Some (Errorf_w "failed to start MCP: "
                   (errorString "fork/exec /mcps/hello-mcp: exec format error"))
                 /\ evs = []).
  { pose proof (f_equal (fun r => (r.1.2, r.2)) Heq) as H. simpl in H.
    vm_compute in H. by injection H as <- <-. }
  destruct Herr as [-> ->]. by rewrite Hnone by (by eexists).
Defined.

(** Witness of X6: the call of scenario B. *)
Lemma ExecuteTool_protocol_witness :
  exists endpoint resp,
    GetMCPForTool registry "calculator-mcp.add" = (Some endpoint, "add", None)
    /\ RespError resp = None
    /\ (ExecuteTool scenario exampleCodec registry "calculator-mcp.add"
                    (arguments "10" "20")).1.1 = Result resp.
Proof.
  pose proof (ExecuteTool_protocol scenario exampleCodec registry
                "calculator-mcp.add" (arguments "10" "20")) as H.
  destruct (ExecuteTool scenario exampleCodec registry "calculator-mcp.add"
              (arguments "10" "20")) as [[result err] evs] eqn:Heq.
  assert (Herr : err = None).
  { pose proof (f_equal (fun r => r.1.2) Heq) as H'. simpl in H'.
    rewrite <- H'. by vm_compute. }
  destruct H as [_ Hsuccess].
  destruct (Hsuccess Herr)
    as (endpoint & localName & callJSON & response & resp
        & Hresolve & _ & _ & _ & Hnone & ->).
  exists endpoint, resp. split; [| done].
  rewrite Hresolve. f_equal. f_equal.
  assert (Hlocal : (GetMCPForTool registry "calculator-mcp.add").1.2 = "add")
    by (by vm_compute).
  by rewrite Hresolve in Hlocal.
Defined.

(** Witness of X7. *)
Lemma LoadMCPs_processes_witness :
  bracketed (LoadMCPs scenario exampleCodec (NewMCPManager "/mcps")).2
  /\ started (LoadMCPs scenario exampleCodec (NewMCPManager "/mcps")).2
     `sublist_of` ["/mcps/calculator-mcp"; "/mcps/hello-mcp"].
Proof.
  pose proof (LoadMCPs_processes scenario exampleCodec (NewMCPManager "/mcps"))
    as H.
  destruct (LoadMCPs scenario exampleCodec (NewMCPManager "/mcps"))
    as [[m' err] evs].
  exact H.
Defined.

(** Witness of X8. *)
Lemma registry_entries_consistent_witness :
  mcpMap (LoadMCPs helloBroken exampleCodec (NewMCPManager "/mcps")).1.1
    !! "hello-mcp"
  = Some {| MCPName := "hello-mcp"; Path := "/mcps/hello-mcp"; ToolInfos := [] |}
  /\ providerName "/mcps/hello-mcp" = "hello-mcp".
Proof.
  assert (H : mcpMap (LoadMCPs helloBroken exampleCodec (NewMCPManager "/mcps")).1.1
                !! "hello-mcp"
              = Some {| MCPName := "hello-mcp"; Path := "/mcps/hello-mcp";
                        ToolInfos := [] |}) by (by vm_compute).
  split; [exact H |].
  by destruct (registry_entries_consistent _ _ _ _ _ H) as (_ & Hname & _).
Defined.

(** Witness of X9: the server of the scenario starts although [hello-mcp]
    does not. *)
Lemma NewMCPServer_startup_witness :
  readable twoProviders = true
  /\ exists s, (NewMCPServer helloBroken exampleCodec "/mcps").1.1 = Some s.
Proof.
  split; [reflexivity |].
  pose proof (NewMCPServer_startup helloBroken exampleCodec "/mcps") as H.
  destruct (NewMCPServer helloBroken exampleCodec "/mcps")
    as [[server err] evs].
  change (Lstat helloBroken "/mcps") with (@inr error _ twoProviders) in H.
  destruct H as [Hstart _].
  destruct (Hstart eq_refl) as (_ & s & -> & _). by exists s.
Defined.

(** Witness of X10. *)
Lemma tools_list_handling_witness :
  Unmarshal_request exampleCodec rawList
    = inr {| JSONRPC := "2.0"; ID := JNumber "3"; Method := "tools/list" |}
  /\ exists tools,
       ProcessRequest scenario exampleCodec server rawList
       = (render
            (AMap [("jsonrpc", AString "2.0"); ("id", AJSON (JNumber "3"));
                   ("result", AMap [("tools", ATools tools)])]), None, [])
       /\ length tools = 4.
Proof.
  assert (Hrequest : Unmarshal_request exampleCodec rawList
            = inr {| JSONRPC := "2.0"; ID := JNumber "3"; Method := "tools/list" |})
    by (by vm_compute).
  split; [exact Hrequest |].
  destruct (tools_list_handling scenario exampleCodec server rawList _
              Hrequest eq_refl (reflexivity _ : range_order _ _))
    as (tools & Hprocess & Hperm).
  exists tools. split; [exact Hprocess |].
  rewrite (Permutation_length Hperm). by vm_compute.
Defined.

(** Witness of X11: an unsupported method and a failing tool. *)
Lemma ProcessRequest_failures_witness :
  (forall v, (Marshal exampleCodec v).2 = None)
  /\ is_Some (ProcessRequest scenario exampleCodec server rawInitialize).1.2
  /\ (ProcessRequest scenario exampleCodec server rawDivide).1.2 = None.
Proof.
  assert (Hmarshal : forall v, (Marshal exampleCodec v).2 = None)
    by (intros v; reflexivity).
  split; [exact Hmarshal |]. split.
  - pose proof (ProcessRequest_failures scenario exampleCodec server
                  rawInitialize Hmarshal) as H.
    destruct (ProcessRequest scenario exampleCodec server rawInitialize)
      as [[response err] evs].
    destruct H as [[_ H] _]. simpl. apply H.
    assert (Hr : Unmarshal_request exampleCodec rawInitialize
              = inr {| JSONRPC := "2.0"; ID := JNumber "1";
                       Method := "initialize" |}) by (by vm_compute).
    rewrite Hr. simpl. split; done.
  - pose proof (ProcessRequest_failures scenario exampleCodec server
                  rawDivide Hmarshal) as H.
    destruct (ProcessRequest scenario exampleCodec server rawDivide)
      as [[response [err|]] evs]; [| done].
    exfalso. destruct H as [[H _] _].
    assert (Hr : Unmarshal_request exampleCodec rawDivide
              = inr {| JSONRPC := "2.0"; ID := JNumber "7";
                       Method := "tools/call" |}) by (by vm_compute).
    rewrite Hr in H. simpl in H.
    destruct (H (ltac:(by eexists))) as [_ Hparams].
    destruct (Hparams eq_refl) as [e He]. by vm_compute in He.
Defined.

(** Witness of X12. *)
Lemma ProcessRequest_processes_witness :
  started (ProcessRequest scenario exampleCodec server rawDivide).2
  = ["/mcps/calculator-mcp"]
  /\ bracketed (ProcessRequest scenario exampleCodec server rawDivide).2.
Proof.
  pose proof (ProcessRequest_processes scenario exampleCodec server rawDivide)
    as H.
  destruct (ProcessRequest scenario exampleCodec server rawDivide)
    as [[response err] evs] eqn:Heq.
  destruct H as [Hbracketed _]. split; [| exact Hbracketed].
  pose proof (f_equal (fun r => started r.2) Heq) as H.
  cbn beta in H. cbn [snd]. cbn [snd] in H. rewrite <- H. by vm_compute.
Defined.

(** Witness of X13: the failing division is answered with status 200. *)
Lemma ServeHTTP_status_witness :
  (forall v, (Marshal exampleCodec v).2 = None)
  /\ StatusCode (ServeHTTP_handler scenario exampleCodec server "POST"
                   (inr rawDivide)).1 = 200%Z
  /\ (ServeHTTP_handler scenario exampleCodec server "GET" (inr rawDivide)).1
     = httpError "Method not allowed" 405.
Proof.
  assert (Hmarshal : forall v, (Marshal exampleCodec v).2 = None)
    by (intros v; reflexivity).
  split; [exact Hmarshal |]. split.
  - pose proof (ServeHTTP_status scenario exampleCodec server "POST"
                  (inr rawDivide) Hmarshal) as H.
    destruct (ServeHTTP_handler scenario exampleCodec server "POST"
                (inr rawDivide)) as [resp evs].
    destruct H as [[_ H] _]. simpl. apply H. split; [done |].
    exists rawDivide, {| JSONRPC := "2.0"; ID := JNumber "7"; Method := "tools/call" |}.
    split; [done |]. split; [by vm_compute |]. right. split; [done |].
    eexists. by vm_compute.
  - pose proof (ServeHTTP_status scenario exampleCodec server "GET"
                  (inr rawDivide) Hmarshal) as H.
    destruct (ServeHTTP_handler scenario exampleCodec server "GET"
                (inr rawDivide)) as [resp evs].
    destruct H as (_ & _ & H & _). simpl. by apply H.
Defined.

(** Witness of X14. *)
Lemma proxy_passthrough_witness :
  (Proxy_ProcessRequest net proxy rawInitialize).2
  = Some (errorString "received non-OK response: 500").
Proof.
  pose proof (proxy_passthrough net proxy rawInitialize) as H.
  destruct (Proxy_ProcessRequest net proxy rawInitialize) as [response err].
  destruct H as (_ & _ & H). simpl.
  assert (Hdo : Do net proxy rawInitialize
            = inr {| Status := 500;
                     ReplyBody :=
                       inr ("Failed to process request: method not implemented: initialize"
                              +:+ newline) |}) by (by vm_compute).
  by rewrite (H _ eq_refl Hdo).
Defined.

(** Witness of X15: of the six turns two are answered, and a signal after
    the first call ends the loop with one answer written. *)
Lemma proxyLoop_forwards_witness :
  (forall data, StdoutWrite net data = None)
  /\ length (written (proxyLoop net proxy input)) = 2
  /\ returned (proxyLoop net proxy input) = true
  /\ length (written (proxyLoop net proxy interrupted)) = 1
  /\ returned (proxyLoop net proxy interrupted) = true.
Proof.
  assert (Hstdout : forall data, StdoutWrite net data = None)
    by (intros data; reflexivity).
  split; [exact Hstdout |].
  destruct (proxyLoop_forwards net proxy input Hstdout) as [Hwritten Hreturned].
  destruct (proxyLoop_forwards net proxy interrupted Hstdout)
    as [Hwritten' Hreturned'].
  split; [| split; [| split]].
  - rewrite Hwritten. by vm_compute.
  - apply Hreturned. vm_compute. lia.
  - rewrite Hwritten'. by vm_compute.
  - apply Hreturned'. vm_compute. lia.
Defined.

(** Witness of X16. *)
Lemma proxy_over_server_witness :
  rawInitialize <> ""
  /\ written (proxyLoop (serverNet scenario exampleCodec server) proxy
                [Chunk rawInitialize]) = [].
Proof.
  assert (Hne : rawInitialize <> "") by (by vm_compute).
  split; [exact Hne |].
  pose proof (proxy_over_server scenario exampleCodec server proxy rawInitialize)
    as H.
  destruct (ProcessRequest scenario exampleCodec server rawInitialize)
    as [[response err] evs] eqn:Heq.
  assert (Herr : is_Some err).
  { pose proof (f_equal (fun r => r.1.2) Heq) as H'. simpl in H'.
    rewrite <- H'. vm_compute. by eexists. }
  destruct Herr as [e ->]. destruct H as [_ H]. by apply H.
Defined.

(** Witness of X17 and of X18: the state after the first reader has taken
    the read lock and visited the one entry. *)
Lemma mutual_exclusion_witness :
  exists s,
    run reloadPlan [RLock 0; Visit 0 "hello-mcp"] (init before 2) = Some s
    /\ readerCount (mutex s) = 1
    /\ reload s = WStart
    /\ exec reloadPlan Lock s = None.
Proof.
  destruct (run reloadPlan [RLock 0; Visit 0 "hello-mcp"] (init before 2))
    as [s|] eqn:Hrun; [| by vm_compute in Hrun].
  exists s. split; [done |].
  destruct (mutual_exclusion before reloadPlan 2 s (run_reachable _ _ _ _ Hrun))
    as (Hcount & _ & Hreaders).
  assert (Hreads : reads s
            = [RLocked [("hello-mcp",
                         {| MCPName := "hello-mcp"; Path := "/mcps/hello-mcp";
                            ToolInfos := [] |})];
               RStart]).
  { vm_compute in Hrun. by injection Hrun as <-. }
  assert (Hone : readerCount (mutex s) = 1) by (by rewrite Hcount, Hreads).
  split; [exact Hone |].
  assert (Hstart : reload s = WStart).
  { assert (Hfirst : reads s !! 0
              = Some (RLocked [("hello-mcp",
                                {| MCPName := "hello-mcp";
                                   Path := "/mcps/hello-mcp";
                                   ToolInfos := [] |})]))
      by (by rewrite Hreads).
    destruct (Hreaders 0 _ Hfirst) as [H | H]; [done |].
    vm_compute in Hrun. injection Hrun as <-. done. }
  split; [exact Hstart |].
  apply Lock_waits_for_readers. by rewrite Hone.
Defined.

Lemma deadlock_free_witness :
  exists s a s',
    run reloadPlan [RLock 0; Visit 0 "hello-mcp"] (init before 2) = Some s
    /\ exec reloadPlan a s = Some s'.
Proof.
  destruct (run reloadPlan [RLock 0; Visit 0 "hello-mcp"] (init before 2))
    as [s|] eqn:Hrun; [| by vm_compute in Hrun].
  exists s.
  destruct (deadlock_free before reloadPlan 2 s (run_reachable _ _ _ _ Hrun))
    as [[Hdone _] | (a & s' & Hstep)].
  - exfalso. vm_compute in Hrun. injection Hrun as <-. done.
  - by exists a, s'.
Defined.
